(** * RoastBot: a shallow embedding of [main.py]

    The bot forwards a user's copywriting (text or image) to a generation
    backend and relays the critique, counting usage per user in a SQLite
    table.  This development embeds the prompt builder, the user store
    ([DatabaseManager]), the retry orchestrator ([_process_with_retry]) and
    the two message handlers, and proves the properties the specification
    states about them.

    Conventions.  A Python [str] is a [string] holding its UTF-8 bytes.
    Python integers and SQLite [INTEGER] columns are [Z].  Awaited calls that
    can raise are steps of a state-and-exception monad over a [World]; what
    the collaborators answer (messaging transport, generation backend,
    SQLite engine, file system) is read from an [Env] of oracles. *)

From Stdlib Require Import String Ascii List ZArith Bool Arith Lia DecimalString.
Import ListNotations.
Local Open Scope string_scope.

(** ** String constants of the source *)

(** The double quote and the line feed, which the source writes as escapes. *)
Definition dq : string := String (ascii_of_nat 34) EmptyString.
Definition nl : string := String (ascii_of_nat 10) EmptyString.

(** [class BotMode]: the two mode constants and their string values. *)
Inductive BotMode : Type := SPICY | SOLUTION.

Definition mode_value (m : BotMode) : string :=
  match m with
  | SPICY => "pedas"
  | SOLUTION => "solusi"
  end.

(** [self.prompts[BotMode.SPICY]]: the critique-only template. *)
Definition prompt_SPICY : string :=
  String.concat nl
    [ EmptyString;
      "            Lo adalah seorang stand up komedi dengan pengalaman lebih dari 10 tahun. Spesialis lo adalah di roasting. Lo paling bisa kalo soal roasting. Ga cuma itu, lo juga ahli dalam copywriting sembari lo jadi stand up komedian. Nah sekarang lo ditugasin buat roasting-in hasil copywriting orang. ";
      "            ";
      "            Lo ga perlu mikirin solusi, lo cukup kasih roasting-an sebagai hiburan. Anggep aja lo sekarang lagi di tongkrongan terus ada temen lo nunjukkin copywriting-nya!";
      EmptyString;
      "            Lo ga usah intro, langsung kasih roasting pake bahasa sehari-hari yang gaul & friendly kayak lo gue gitu, ga usah formal.";
      EmptyString;
      "            Nih teks copywriting-nya:";
      "            " ++ dq ++ "{text}" ++ dq;
      EmptyString;
      "            lo ga perlu pake format markdown, kasih aja output lo dalam plaintext.";
      "            " ].

(** [self.prompts[BotMode.SOLUTION]]: the critique-plus-advice template. *)
Definition prompt_SOLUTION : string :=
  String.concat nl
    [ EmptyString;
      "            Lo adalah seorang stand up komedi dengan pengalaman lebih dari 10 tahun. Spesialis lo adalah di roasting. Lo paling bisa kalo soal roasting. Ga cuma itu, lo juga ahli dalam copywriting sembari lo jadi stand up komedian. Nah sekarang lo ditugasin buat roasting-in hasil copywriting orang. ";
      EmptyString;
      "            Karena situasinya lo lagi ditongkrongan sama temen lu yang minta roasting-in copywriting-nya, selain ngasih roasting, lo kasih saran dan solusi juga sekalian ngebuktiin (pamer) skill lo dibidang copywriting yang udah 10 tahun itu.";
      EmptyString;
      "            Lo ga usah intro, kasih roasting & saran pake bahasa sehari-hari yang gaul & friendly kayak lo gue gitu, ga usah formal.";
      EmptyString;
      "            Nih teks Copywriting-nya:";
      "            " ++ dq ++ "{text}" ++ dq;
      EmptyString;
      "            lo ga perlu pake format markdown, kasih aja output lo dalam plaintext.";
      "            " ].

(** [self.image_prompt]: the fixed instruction sent with an image. *)
Definition image_prompt : string :=
  String.concat nl
    [ EmptyString;
      "        Lo itu seorang yang Graphic Designer dan Copywriter dengan pengalaman lebih dari 10 tahun. ";
      "        Lo juga orang yang sering nge-roasting desain dan copywriting yang aneh-aneh dengan gaya lo yang asik, friendly. ";
      "        Ga cuma roasting, lo juga suka ngasih edukasi ke orang-orang gimana benernya. ";
      "        Nah, sekarang gue mau lo roasting gambar ini dari segi visual dan copywriting-nya, ";
      "        straight to the point aja kayak lo lagi nongkrong santuy terus ada temen lo nunjukkin desain dan copywriting dia di gambar itu. ";
      "        Hasil roasting-nya langsung plaintext aja, ga usah pake format markdown";
      "        " ].

(** [self.fallback_text]: what the text handler passes as fallback. *)
Definition fallback_text : string :=
  String.concat nl
    [ "Waduh, mesin roasting gue lagi error berat nih! üò´";
      EmptyString;
      "Tapi tenang, gue tetep kasih roast spesial buat lo:";
      EmptyString;
      dq ++ "Hmm, copywriting lo... unik juga ya. Lain dari yang lain. Pokoknya... jangan semangat & jangan berkarya!" ++ dq ++ " üòâ";
      EmptyString;
      "Ini roast darurat ya, lain kali gue roast beneran deh kalo otak gue udah bener. Coba lagi!" ].

(** [self.fallback_image]: what the image handler passes as fallback. *)
Definition fallback_image : string :=
  String.concat nl
    [ "Waduh, mesin roast gambar gue lagi error berat nih! üò≠";
      EmptyString;
      "Tapi tenang, gue tetep kasih roast spesial buat gambar lo:";
      EmptyString;
      dq ++ "Hmm, gambar copywriting lo... menarik juga ya. Visualnya... lain dari yang lain. Pokoknya... jangan semangat & jangan berkarya!" ++ dq ++ " üòâ";
      EmptyString;
      "Ini roast darurat gambar ya, lain kali gue roast beneran deh kalo otak gue udah bener. Coba lagi ya!" ].

(** Reply of [handle_text] to a message without text. *)
Definition msg_need_text : string :=
  "Eh, kirimin dulu dong teks copywriting yang mau di-roast!".

(** First reply of [handle_text]; it becomes the status message. *)
Definition msg_text_received : string :=
  "Copywriting lo udah gue terima nih! jangan kabur lo!".

(** First reply of [handle_image]; it becomes the status message. *)
Definition msg_image_received : string :=
  "Gambar copywriting lo udah gue terima nih! Bentar ya, lagi gue bedah... üßê".

(** Reply of the orchestrator when the work returns nothing. *)
Definition msg_speechless : string :=
  "Hmm, API speechless... copywriting lo terlalu bagus (atau terlalu parah?)! Coba kirim yang lain deh.".

(** The three status texts of [_process_with_retry], f-strings over the
    current mode (and, for the second, the number of the next attempt). *)
Definition string_of_nat (n : nat) : string :=
  NilEmpty.string_of_uint (Nat.to_uint n).

Definition status_processing (m : BotMode) : string :=
  "Wait, bahan lo lagi digoreng master chef pake mode *" ++ mode_value m
  ++ "*! üî•".

Definition status_retry (m : BotMode) (next_attempt : nat) : string :=
  "Waduh, mesin roasting mode *" ++ mode_value m
  ++ "* kayaknya lagi ngambek dikit... üò™" ++ nl
  ++ "Gue coba sekali lagi ya... (percobaan ke-" ++ string_of_nat next_attempt
  ++ ")".

Definition status_exhausted (m : BotMode) : string :=
  "Waduh, mesin roasting mode *" ++ mode_value m
  ++ "* lagi ngambek! üò≠ Sabar ya, lagi diperbaiki nih...".

(** Python truthiness of a [str]: [if s:] holds for a non-empty string. *)
Definition truthy (s : string) : bool :=
  match s with
  | EmptyString => false
  | String _ _ => true
  end.

(** ** Prompt builder: [self.prompts[mode].format(text=...)] *)

Definition prompts (m : BotMode) : string :=
  match m with
  | SPICY => prompt_SPICY
  | SOLUTION => prompt_SOLUTION
  end.

(** What [str.format] gives when called with the single keyword [text]:
    the formatted string, or the exception it raises.  [LookupError] stands
    for the [KeyError] of an unknown field name and the [IndexError] of a
    positional field; [ValueError] for an unbalanced brace.  Fields with an
    attribute, an index, a conversion or a format spec do not occur in the
    bot's templates and are reported as [Unsupported]. *)
Inductive FormatResult : Type :=
  | Formatted (s : string)
  | LookupError
  | ValueError
  | Unsupported.

Inductive ScanState : Type :=
  | Literal
  | SawOpen
  | InField (name : string)
  | SawClose.

Definition emit (c : ascii) (r : FormatResult) : FormatResult :=
  match r with
  | Formatted s => Formatted (String c s)
  | e => e
  end.

Definition emit_str (t : string) (r : FormatResult) : FormatResult :=
  match r with
  | Formatted s => Formatted (t ++ s)
  | e => e
  end.

Definition open_brace : ascii := ascii_of_nat 123.
Definition close_brace : ascii := ascii_of_nat 125.

(** Characters that start an attribute, index, conversion, format spec or
    nested field inside a replacement field. *)
Definition field_special (c : ascii) : bool :=
  (c =? ".")%char || (c =? "[")%char || (c =? "!")%char || (c =? ":")%char
  || (c =? open_brace)%char.

(** One left-to-right pass over the template, as [str.format] does: doubled
    braces are literal braces, [{name}] is replaced by the argument of that
    name, and the inserted text is not scanned again. *)
Fixpoint format_scan (st : ScanState) (template text : string) : FormatResult :=
  match template with
  | EmptyString =>
      match st with
      | Literal => Formatted EmptyString
      | _ => ValueError
      end
  | String c rest =>
      match st with
      | Literal =>
          if (c =? open_brace)%char then format_scan SawOpen rest text
          else if (c =? close_brace)%char then format_scan SawClose rest text
          else emit c (format_scan Literal rest text)
      | SawOpen =>
          if (c =? open_brace)%char then emit c (format_scan Literal rest text)
          else if (c =? close_brace)%char then LookupError
          else if field_special c then Unsupported
          else format_scan (InField (String c EmptyString)) rest text
      | InField name =>
          if (c =? close_brace)%char then
            if (name =? "text")%string
            then emit_str text (format_scan Literal rest text)
            else LookupError
          else if field_special c then Unsupported
          else format_scan (InField (name ++ String c EmptyString)) rest text
      | SawClose =>
          if (c =? close_brace)%char then emit c (format_scan Literal rest text)
          else ValueError
      end
  end.

Definition format (template text : string) : FormatResult :=
  format_scan Literal template text.

(** [prompt = self.prompts[current_mode].format(text=user_copywriting)] *)
Definition build_prompt (m : BotMode) (user_copywriting : string) : FormatResult :=
  format (prompts m) user_copywriting.

(** The part of a template before its first brace and the part after the
    first closing brace. *)
Fixpoint before_brace (s : string) : string :=
  match s with
  | EmptyString => EmptyString
  | String c rest =>
      if (c =? open_brace)%char then EmptyString else String c (before_brace rest)
  end.

Fixpoint after_brace (s : string) : string :=
  match s with
  | EmptyString => EmptyString
  | String c rest => if (c =? close_brace)%char then rest else after_brace rest
  end.

Definition prompt_prefix (m : BotMode) : string := before_brace (prompts m).
Definition prompt_suffix (m : BotMode) : string := after_brace (prompts m).

Fixpoint has_brace (s : string) : bool :=
  match s with
  | EmptyString => false
  | String c rest =>
      (c =? open_brace)%char || (c =? close_brace)%char || has_brace rest
  end.

(** Number of positions of [hay] at which [needle] occurs. *)
Fixpoint occurrences (needle hay : string) : nat :=
  (if prefix needle hay then 1 else 0)
  + match hay with
    | EmptyString => 0
    | String _ rest => occurrences needle rest
    end.

(** ** Exceptions and results *)

(** The exception classes that matter to the control flow.  All of them are
    subclasses of [Exception]; [Sqlite3Error] is [sqlite3.Error]. *)
Inductive Exn : Type :=
  | Sqlite3Error
  | TelegramError
  | GenerationError
  | FileError
  | IndexError
  | FormatError.

(** A call either returns a value or raises. *)
Inductive Result (A : Type) : Type :=
  | Val (a : A)
  | Exc (e : Exn).
Arguments Val {A} a.
Arguments Exc {A} e.

(** ** The user store: [class DatabaseManager] *)

Module DatabaseManager.

(** A row of the [users] table.  The counters are SQLite integers, taken
    here as unbounded. *)
Record UserRecord : Type := mkUser {
  user_id : Z;
  username : string;
  join_time : string;
  usage_count : Z;
  image_usage_count : Z
}.

Definition Table : Type := list UserRecord.

(** Whether the SQLite engine raises [sqlite3.Error] during one method call
    (the file cannot be opened, the database is locked, ...). *)
Inductive SqliteStatus : Type := SqliteOk | SqliteFails.

(** The two counter columns [_increment_field] is called with. *)
Inductive Field : Type := F_usage_count | F_image_usage_count.

Definition has_id (uid : Z) (r : UserRecord) : bool := (user_id r =? uid)%Z.

(** The rows [WHERE user_id = ?] selects. *)
Definition rows_of (uid : Z) (t : Table) : Table := filter (has_id uid) t.

(** [user_id INTEGER PRIMARY KEY]: no two rows share an identifier. *)
Definition primary_key (t : Table) : Prop := NoDup (map user_id t).

(** [cursor.execute(SELECT ...)] followed by [cursor.fetchone()]. *)
Definition select_user (uid : Z) (t : Table) : option UserRecord :=
  find (has_id uid) t.

(** [INSERT INTO users (user_id, username, join_time)]: the counters take
    their default 0; a duplicate key raises [sqlite3.IntegrityError]. *)
Definition insert_user (uid : Z) (name now : string) (t : Table) : Result Table :=
  if existsb (has_id uid) t then Exc Sqlite3Error
  else Val (t ++ [mkUser uid name now 0 0])%list.

Definition bump (f : Field) (r : UserRecord) : UserRecord :=
  match f with
  | F_usage_count =>
      mkUser (user_id r) (username r) (join_time r)
             (usage_count r + 1) (image_usage_count r)
  | F_image_usage_count =>
      mkUser (user_id r) (username r) (join_time r)
             (usage_count r) (image_usage_count r + 1)
  end.

(** [UPDATE users SET field = field + 1 WHERE user_id = ?]. *)
Definition update_rows (f : Field) (uid : Z) (t : Table) : Table :=
  map (fun r => if has_id uid r then bump f r else r) t.

(** [except sqlite3.Error: ... return False]: the error is swallowed and
    nothing was committed, so the table is the one the call started from. *)
Definition except_sqlite3 (t0 : Table) (r : Result bool * Table) : Result bool * Table :=
  match r with
  | (Exc Sqlite3Error, _) => (Val false, t0)
  | _ => r
  end.

Definition add_user (st : SqliteStatus) (now : string) (uid : Z) (name : string)
           (t : Table) : Result bool * Table :=
  except_sqlite3 t
    match st with
    | SqliteFails => (Exc Sqlite3Error, t)
    | SqliteOk =>
        match select_user uid t with
        | Some _ => (Val false, t)
        | None =>
            match insert_user uid name now t with
            | Val t' => (Val true, t')
            | Exc e => (Exc e, t)
            end
        end
    end.

Definition _increment_field (st : SqliteStatus) (uid : Z) (f : Field)
           (t : Table) : Result bool * Table :=
  except_sqlite3 t
    match st with
    | SqliteFails => (Exc Sqlite3Error, t)
    | SqliteOk => (Val true, update_rows f uid t)
    end.

Definition increment_usage_count (st : SqliteStatus) (uid : Z) (t : Table) :=
  _increment_field st uid F_usage_count t.

Definition increment_image_usage_count (st : SqliteStatus) (uid : Z) (t : Table) :=
  _increment_field st uid F_image_usage_count t.

(** [get_user_data]: the three columns of the user's row, or [None]. *)
Definition get_user_data (st : SqliteStatus) (uid : Z) (t : Table)
  : option (string * Z * Z) :=
  match st with
  | SqliteFails => None
  | SqliteOk =>
      match select_user uid t with
      | Some r => Some (username r, usage_count r, image_usage_count r)
      | None => None
      end
  end.

(** No counter of a row of [t] is larger than in the row of [t'] with the
    same identifier, and no row is lost. *)
Definition counters_le (t t' : Table) : Prop :=
  forall uid r, select_user uid t = Some r ->
    exists r', select_user uid t' = Some r'
               /\ (usage_count r <= usage_count r')%Z
               /\ (image_usage_count r <= image_usage_count r')%Z.

End DatabaseManager.

(** ** The world a handler runs in *)

Import DatabaseManager.

(** [telegram.constants.ParseMode], with [PlainText] for a call that passes
    no [parse_mode]. *)
Inductive ParseMode : Type := PlainText | MARKDOWN | MARKDOWN_V2.

(** The awaited calls to the messaging transport.  The chat and the status
    message they address are fixed by the update being handled. *)
Inductive BotCall : Type :=
  | send_chat_action
  | edit_message_text (text : string) (parse_mode : ParseMode)
  | reply_text (text : string)
  | delete_message
  | get_file (file_id : string)
  | download_to_drive (path : string).

(** What a run leaves behind, in order.  The source keeps no such record:
    the list is ghost state the theorems speak about. *)
Inductive Event : Type :=
  | Called (c : BotCall) (ok : bool)
  | Invoked (input : string) (r : Result string)
  | Slept (seconds : Z)
  | Incremented (f : Field) (uid : Z) (st : SqliteStatus).

Inductive GenRequest : Type :=
  | TextRequest (prompt : string)
  | ImageRequest (prompt image_path : string).

(** An answer of [generate_content]: it raises, it gives a falsy response
    object, or it gives a response with this [text]. *)
Inductive GenOutcome : Type :=
  | GenRaises
  | GenNothing
  | GenText (text : string).

(** The collaborators, as oracles.  [transport n c] tells whether the
    [n]-th call to the transport, being [c], goes through ([false]: it
    raises); [backend n q] is the answer to request [q] made by the [n]-th
    invocation of the work; [sqlite n] is the engine's status during the
    [n]-th store call; [unlink_ok p] tells whether the file system lets
    [p] be deleted. *)
Record Env : Type := mkEnv {
  transport : nat -> BotCall -> bool;
  backend : nat -> GenRequest -> GenOutcome;
  sqlite : nat -> SqliteStatus;
  unlink_ok : string -> bool
}.

Record World : Type := mkWorld {
  bot_mode : BotMode;          (* self.config.bot_mode *)
  users : Table;               (* the users table *)
  files : list string;         (* paths present under downloads/ *)
  bot_calls : nat;             (* transport calls made so far *)
  work_calls : nat;            (* invocations of a unit of work so far *)
  db_calls : nat               (* store calls made so far *)
}.

Definition tick_bot (w : World) : World :=
  mkWorld (bot_mode w) (users w) (files w) (S (bot_calls w)) (work_calls w) (db_calls w).

Definition tick_work (w : World) : World :=
  mkWorld (bot_mode w) (users w) (files w) (bot_calls w) (S (work_calls w)) (db_calls w).

Definition store (t : Table) (w : World) : World :=
  mkWorld (bot_mode w) t (files w) (bot_calls w) (work_calls w) (S (db_calls w)).

Definition set_files (fs : list string) (w : World) : World :=
  mkWorld (bot_mode w) (users w) fs (bot_calls w) (work_calls w) (db_calls w).

(** ** A state-and-exception monad with a log *)

Record Run (A : Type) : Type := mkRun {
  result : Result A;
  final : World;
  events : list Event
}.
Arguments mkRun {A} result final events.
Arguments result {A} r.
Arguments final {A} r.
Arguments events {A} r.

Definition M (A : Type) : Type := World -> Run A.

Definition ret {A} (a : A) : M A := fun w => mkRun (Val a) w [].

Definition raise {A} (e : Exn) : M A := fun w => mkRun (Exc e) w [].

Definition bind {A B} (m : M A) (k : A -> M B) : M B := fun w =>
  match m w with
  | mkRun (Val a) w1 evs1 =>
      match k a w1 with
      | mkRun r w2 evs2 => mkRun r w2 (evs1 ++ evs2)%list
      end
  | mkRun (Exc e) w1 evs1 => mkRun (Exc e) w1 evs1
  end.

Notation "x <- m ;; k" := (bind m (fun x => k))
  (at level 61, m at next level, right associativity).
Notation "m ;; k" := (bind m (fun _ => k))
  (at level 61, right associativity).

(** [try: body / except Exception as e: handler e]. *)
Definition try_except {A} (body : M A) (handler : Exn -> M A) : M A := fun w =>
  match body w with
  | mkRun (Val a) w1 evs1 => mkRun (Val a) w1 evs1
  | mkRun (Exc e) w1 evs1 =>
      match handler e w1 with
      | mkRun r w2 evs2 => mkRun r w2 (evs1 ++ evs2)%list
      end
  end.

(** [try: body / finally: cleanup]: the cleanup runs on every exit of the
    body; the body's outcome stands unless the cleanup itself raises. *)
Definition try_finally {A} (body : M A) (cleanup : M unit) : M A := fun w =>
  match body w with
  | mkRun r w1 evs1 =>
      match cleanup w1 with
      | mkRun (Val _) w2 evs2 => mkRun r w2 (evs1 ++ evs2)%list
      | mkRun (Exc e) w2 evs2 => mkRun (Exc e) w2 (evs1 ++ evs2)%list
      end
  end.

Section Bot.

Variable env : Env.

(** *** Primitive steps *)

Definition bot_call (c : BotCall) : M unit := fun w =>
  let ok := transport env (bot_calls w) c in
  mkRun (if ok then Val tt else Exc TelegramError) (tick_bot w) [Called c ok].

(** [await file.download_to_drive(image_path)]: once the call went
    through, the file is there. *)
Definition download (path : string) : M unit :=
  bot_call (download_to_drive path) ;;
  fun w => mkRun (Val tt) (set_files (path :: files w) w) [].

Definition sleep (seconds : Z) : M unit := fun w => mkRun (Val tt) w [Slept seconds].

Definition get_mode : M BotMode := fun w => mkRun (Val (bot_mode w)) w [].

Definition present (path : string) (w : World) : bool :=
  existsb (String.eqb path) (files w).

(** [image_path.exists()] and [image_path.unlink()]. *)
Definition path_exists (path : string) : M bool := fun w =>
  mkRun (Val (present path w)) w [].

Definition unlink (path : string) : M unit := fun w =>
  if present path w && unlink_ok env path
  then mkRun (Val tt) (set_files (remove string_dec path (files w)) w) []
  else mkRun (Exc FileError) w [].

(** [self.db.increment_usage_count] and [self.db.increment_image_usage_count]
    as the handlers call them. *)
Definition db_increment (f : Field) (uid : Z) : M bool := fun w =>
  let st := sqlite env (db_calls w) in
  let out := _increment_field st uid f (users w) in
  mkRun (fst out) (store (snd out) w) [Incremented f uid st].

(** *** Units of work *)

(** A unit of work: given its input it returns a string or raises.  What
    it answers may depend on the world it is invoked in (how many
    invocations came before, which files exist); it changes nothing the
    bot can observe. *)
Definition Work : Type := string -> World -> Result string.

(** [response = await process_func(process_input)]. *)
Definition invoke (process_func : Work) (process_input : string) : M string := fun w =>
  let r := process_func process_input w in
  mkRun r (tick_work w) [Invoked process_input r].

(** [response.text if response else ""]. *)
Definition response_text_of (o : GenOutcome) : Result string :=
  match o with
  | GenRaises => Exc GenerationError
  | GenNothing => Val EmptyString
  | GenText text => Val text
  end.

Definition _generate_text_response : Work := fun prompt w =>
  response_text_of (backend env (work_calls w) (TextRequest prompt)).

(** [Image.open] raises when the file is not there; the [except] clause
    logs and raises again. *)
Definition _generate_image_response : Work := fun image_path w =>
  if present image_path w
  then response_text_of (backend env (work_calls w) (ImageRequest image_prompt image_path))
  else Exc FileError.

(** *** The retry orchestrator: [_process_with_retry] *)

Definition max_retries : nat := 3.
Definition retry_delay : Z := 2.

(** One pass of the loop body.  [Some s]: the function returns [s];
    [None]: the loop goes on to the next [retry_count]. *)
Definition attempt (process_func : Work) (process_input fallback_message : string)
           (retry_count : nat) : M (option string) :=
  try_except
    (bot_call send_chat_action ;;
     mode <- get_mode ;;
     bot_call (edit_message_text (status_processing mode) MARKDOWN) ;;
     bot_call send_chat_action ;;
     response <- invoke process_func process_input ;;
     if truthy response then ret (Some response)
     else
       bot_call (reply_text msg_speechless) ;;
       ret (Some EmptyString))
    (fun _ =>
       mode <- get_mode ;;
       if (retry_count <? max_retries)%nat then
         bot_call (edit_message_text (status_retry mode (retry_count + 1)%nat) PlainText) ;;
         sleep retry_delay ;;
         ret None
       else
         bot_call (edit_message_text (status_exhausted mode) MARKDOWN_V2) ;;
         ret (Some fallback_message)).

(** [for retry_count in ...: ...] followed by [return fallback_message]. *)
Fixpoint retry_loop (process_func : Work) (process_input fallback_message : string)
         (retry_counts : list nat) : M string :=
  match retry_counts with
  | [] => ret fallback_message
  | retry_count :: rest =>
      r <- attempt process_func process_input fallback_message retry_count ;;
      match r with
      | Some s => ret s
      | None => retry_loop process_func process_input fallback_message rest
      end
  end.

Definition _process_with_retry (process_func : Work)
           (process_input fallback_message : string) : M string :=
  retry_loop process_func process_input fallback_message (seq 1 max_retries).

(** *** The message handlers *)

(** What a handler reads from [update]. *)
Record Update : Type := mkUpdate {
  effective_user_id : Z;
  message_text : option string;
  message_photo : list string     (* file_id of each size, smallest first *)
}.

Definition handle_text (update : Update) : M unit :=
  match message_text update with
  | None => bot_call (reply_text msg_need_text)
  | Some user_copywriting =>
      if truthy user_copywriting then
        bot_call send_chat_action ;;
        bot_call (reply_text msg_text_received) ;;
        current_mode <- get_mode ;;
        match format (prompts current_mode) user_copywriting with
        | Formatted prompt =>
            response_text <-
              _process_with_retry _generate_text_response prompt fallback_text ;;
            if truthy response_text then
              bot_call delete_message ;;
              _ <- db_increment F_usage_count (effective_user_id update) ;;
              bot_call (reply_text response_text)
            else ret tt
        | _ => raise FormatError
        end
      else bot_call (reply_text msg_need_text)
  end.

(** [DOWNLOADS_DIR / f"{file_id}.jpg"]. *)
Definition image_path_of (file_id : string) : string :=
  "downloads/" ++ file_id ++ ".jpg".

(** The [finally] block of [handle_image]. *)
Definition cleanup (image_path : string) : M unit :=
  try_except
    (there <- path_exists image_path ;;
     if there then unlink image_path else ret tt)
    (fun _ => ret tt).

Definition handle_image (update : Update) : M unit :=
  match rev (message_photo update) with
  | [] => raise IndexError
  | file_id :: _ =>
      bot_call send_chat_action ;;
      bot_call (reply_text msg_image_received) ;;
      bot_call (get_file file_id) ;;
      download (image_path_of file_id) ;;
      try_finally
        (response_text <-
           _process_with_retry _generate_image_response
                               (image_path_of file_id) fallback_image ;;
         if truthy response_text then
           bot_call delete_message ;;
           _ <- db_increment F_usage_count (effective_user_id update) ;;
           _ <- db_increment F_image_usage_count (effective_user_id update) ;;
           bot_call (reply_text response_text)
         else ret tt)
        (cleanup (image_path_of file_id))
  end.

End Bot.

(** ** Vocabulary of the specification *)

(** The transport lets every call through. *)
Definition reliable (env : Env) : Prop :=
  forall n c, transport env n c = true.

(** The delays a run waited, in order. *)
Fixpoint sleeps (evs : list Event) : list Z :=
  match evs with
  | [] => []
  | Slept s :: rest => s :: sleeps rest
  | _ :: rest => sleeps rest
  end.

Definition is_increment (e : Event) : bool :=
  match e with
  | Incremented _ _ _ => true
  | _ => false
  end.

(** The work raises at its invocation number [n] (counting from 0 over the
    life of the world), respectively returns [s] there. *)
Definition fails_at (process_func : Work) (input : string) (n : nat) : Prop :=
  forall w, work_calls w = n -> exists e, process_func input w = Exc e.

Definition returns_at (process_func : Work) (input : string) (n : nat) (s : string) : Prop :=
  forall w, work_calls w = n -> process_func input w = Val s.


(** Collaborators for concrete runs: a transport that refuses exactly the
    calls numbered in [refused], a backend that plays [script], a healthy
    store and file system. *)
Definition mock_env (refused : list nat) (script : nat -> GenOutcome) : Env :=
  mkEnv (fun n _ => negb (existsb (Nat.eqb n) refused))
        (fun n _ => script n)
        (fun _ => SqliteOk)
        (fun _ => true).

Definition always (o : GenOutcome) : nat -> GenOutcome := fun _ => o.


(** One registered user, nothing downloaded, nothing called yet. *)
Definition ani : UserRecord := mkUser 7 "ani" "2024-05-01T10:00:00" 0 0.

Definition fresh_world (m : BotMode) : World := mkWorld m [ani] [] 0 0 0.

Definition text_update (s : string) : Update := mkUpdate 7 (Some s) [].
Definition photo_update : Update := mkUpdate 7 None ["small"; "large"].

(** How many times a run invoked the unit of work. *)
Fixpoint invocations (evs : list Event) : nat :=
  match evs with
  | [] => 0
  | Invoked _ _ :: rest => S (invocations rest)
  | _ :: rest => invocations rest
  end.

(** The transport calls of one pass up to the invocation of the work. *)
Definition opening_calls (m : BotMode) : list Event :=
  [ Called send_chat_action true;
    Called (edit_message_text (status_processing m) MARKDOWN) true;
    Called send_chat_action true ].

(** The world in which a pass invokes the work: three transport calls
    after its start. *)
Definition at_invocation (w : World) : World := tick_bot (tick_bot (tick_bot w)).

Definition has_increment (evs : list Event) : bool := existsb is_increment evs.

(** The strings the work returned during a run, and the texts the run sent
    as replies that went through. *)
Fixpoint generated (evs : list Event) : list string :=
  match evs with
  | [] => []
  | Invoked _ (Val s) :: rest => s :: generated rest
  | _ :: rest => generated rest
  end.

Fixpoint replies (evs : list Event) : list string :=
  match evs with
  | [] => []
  | Called (reply_text s) true :: rest => s :: replies rest
  | _ :: rest => replies rest
  end.

(** Nothing but the counters of calls differs between [w] and [w']. *)
Definition same_state (w w' : World) : Prop :=
  bot_mode w' = bot_mode w /\ users w' = users w
  /\ files w' = files w /\ db_calls w' = db_calls w.

(** What every run [r] of the orchestrator (or of one of its passes) from
    [w] satisfies: it touches neither store nor files, and each invocation
    of the work is on the given input, in a world with the same files. *)
Definition quiet (process_func : Work) (input : string) (w : World)
           (evs : list Event) (w' : World) : Prop :=
  same_state w w'
  /\ has_increment evs = false
  /\ forall i res, In (Invoked i res) evs ->
       i = input /\ exists wi, files wi = files w /\ res = process_func input wi.

(** What the orchestrator can return: nothing, the fallback, or non-empty
    content the work returned during this run. *)
Definition resolved (input fallback : string) (evs : list Event) (s : string) : Prop :=
  s = EmptyString \/ s = fallback
  \/ (truthy s = true /\ In (Invoked input (Val s)) evs).

(** The last events of a text (image) handler run that counts a use of
    user [uid] and sends [s]. *)
Definition text_relay (uid : Z) (s : string) (st : SqliteStatus) (ok : bool)
  : list Event :=
  [ Called delete_message true;
    Incremented F_usage_count uid st;
    Called (reply_text s) ok ].

Definition image_relay (uid : Z) (s : string) (st1 st2 : SqliteStatus) (ok : bool)
  : list Event :=
  [ Called delete_message true;
    Incremented F_usage_count uid st1;
    Incremented F_image_usage_count uid st2;
    Called (reply_text s) ok ].

(** [not update.message.text]: there is no text, or it is empty. *)
Definition no_text (update : Update) : bool :=
  match message_text update with
  | None => true
  | Some s => negb (truthy s)
  end.

(** The part of [handle_text] that follows the orchestrator
    ([if response_text: ...]), and the same part of [handle_image]. *)
Definition text_tail (env : Env) (uid : Z) (response_text : string) : M unit :=
  if truthy response_text then
    bot_call env delete_message ;;
    _ <- db_increment env F_usage_count uid ;;
    bot_call env (reply_text response_text)
  else ret tt.

Definition image_tail (env : Env) (uid : Z) (response_text : string) : M unit :=
  if truthy response_text then
    bot_call env delete_message ;;
    _ <- db_increment env F_usage_count uid ;;
    _ <- db_increment env F_image_usage_count uid ;;
    bot_call env (reply_text response_text)
  else ret tt.

(** ** Command handlers *)

(** What a command handler reads from [update.effective_user]: the
    identifier, the username if any, and the text of
    [user.mention_markdown_v2()], which the transport library computes. *)
Record TelegramUser : Type := mkTelegramUser {
  tg_id : Z;
  tg_username : option string;
  tg_mention : string
}.

(** The one call a command handler awaits, as its last step.  [plain] wraps
    a call of the message handlers' kind ([reply_text]). *)
Inductive Reply : Type :=
  | reply_markdown_v2 (text : string)
  | reply_markdown (text : string)
  | reply_html (text : string) (disable_web_page_preview : bool)
  | plain (c : BotCall).

(** [a or b] on strings, and [user.username or b]. *)
Definition str_or (a b : string) : string := if truthy a then a else b.

Definition opt_or (a : option string) (b : string) : string :=
  match a with
  | Some s => str_or s b
  | None => b
  end.

(** [str(n)] for an integer, as an f-string field prints it. *)
Definition string_of_Z (z : Z) : string := NilZero.string_of_int (Z.to_int z).

(** The name of the mode as [handle_start] words it. *)
Definition mode_description (m : BotMode) : string :=
  match m with
  | SPICY => "Roast Pedas"
  | SOLUTION => "Roast Berfaedah"
  end.

(** The raw f-string of [handle_start]. *)
Definition welcome_text (mention description : string) : string :=
  "Hai " ++ mention ++
  String.concat nl
    [ " üëã\! Gue Bot Roast Copywriting nih ceritanya\. Kirimin aja copywriting lo, nanti gue kasih *masukan membangun*\.\.\. atau mungkin gue roast aja sekalian üî• biar seru\.";
      EmptyString;
      "*Mode Bot:*";
      "Saat ini gue lagi di mode *" ]
  ++ description ++
  String.concat nl
    [ "* \(default\), yang artinya gue bakal roast copywriting lo sebegala rupa tanpa ampun, fokusnya buat hiburan aja üòÇ\.";
      EmptyString;
      "Kalo lo pengen masukan yang lebih *berfaedah* \(tetep di\-roast dikit sih üòú\), lo bisa ganti mode gue ke *Roast Berfaedah* dengan perintah:  `/mode_solusi`";
      EmptyString;
      "Gue juga bisa roasting gambar/desain lo\!";
      EmptyString;
      "Buat balik lagi ke mode awal *Roast Pedas*, pake perintah: `/mode_pedas`";
      EmptyString;
      "Udah siap di\-roast? Kirim copywriting lo sekarang\!" ].

(** The f-string of [handle_myaccount] and its other reply. *)
Definition myaccount_text (name : string) (usage image_usage : Z) : string :=
  String.concat nl
    [ EmptyString;
      "üë§ *Hi, " ]
  ++ name ++
  String.concat nl
    [ "* üë§";
      EmptyString;
      "üìä *Statistik Penggunaan Bot* üìä";
      "- Roast Teks Copywriting: *" ]
  ++ string_of_Z usage ++
  String.concat nl
    [ " kali*";
      "- Roast Gambar Copywriting: *" ]
  ++ string_of_Z image_usage ++
  String.concat nl
    [ " kali*";
      EmptyString;
      "üî• Semangat jadi korban roasting! üî•";
      "            " ].

Definition msg_account_not_found : string :=
  "Waduh, data akun kamu nggak ketemu di database! üò´ Coba /start dulu ya, atau mungkin ada error di database.".

Definition msg_mode_pedas : string :=
  "Oke! Mode bot sekarang di <strong>Roast Pedas</strong> üî• siap nyinyir abis-abisan! Kirimin copywriting lo, siap-siap di-roast tanpa ampun! üòÇ".

Definition msg_mode_solusi : string :=
  "Sip! Mode bot ganti ke <strong>Roast Berfaedah</strong> üëç. Gue bakal tetep roast copywriting lo, tapi gue kasih juga masukan yang <strong>berfaedah</strong> dikit. Kirim copywriting lo, mari kita bedah! üòé".

Definition about_text : string :=
  String.concat nl
    [ EmptyString;
      "Hai gaes! üëã Gue adalah bot Telegram yang siap ngeroast copywriting lo sampe gosong! üî•";
      EmptyString;
      "Bot ini gue bikin buat hiburan semata ya, jangan baper kalo roast-nya kepedesan!";
      EmptyString;
      "Nih kreator-nya, @navrex0 üî•";
      EmptyString;
      "Kalo lo suka sama roast-roast yang pedas ini, dan pengen gue terus semangat ngembangin bot ini, boleh banget nih kasih dukungan ke link Trakteer gue di bawah ini üëáüëá";
      EmptyString;
      "<a href=" ++ dq ++ "https://trakteer.id/ervankurniawan41/tip" ++ dq ++ ">https://trakteer.id/ervankurniawan41/tip</a>";
      EmptyString;
      "Makasih banyak ya buat supportnya! üôè Semoga skill copywriting lo makin mantep setelah di-roast sama gue dan rejeki lo lancar! üî•üî•üî•";
      "        " ].

(** A command handler changes the world and then awaits one call; nothing
    follows that call, so whether it goes through does not change what the
    handler did. *)
Definition Command : Type := World -> World * Reply.

Definition set_mode (m : BotMode) (w : World) : World :=
  mkWorld m (users w) (files w) (bot_calls w) (work_calls w) (db_calls w).

(** [handle_start]; [now] is what [time.strftime] gives during the call. *)
Definition handle_start (env : Env) (now : string) (user : TelegramUser) : Command :=
  fun w =>
    let out := add_user (sqlite env (db_calls w)) now (tg_id user)
                        (opt_or (tg_username user) EmptyString) (users w) in
    let w' := store (snd out) w in
    (w', reply_markdown_v2 (welcome_text (tg_mention user)
                                         (mode_description (bot_mode w')))).

(** [handle_myaccount]: the command [/info_akun]. *)
Definition handle_myaccount (env : Env) (user : TelegramUser) : Command :=
  fun w =>
    let account_data := get_user_data (sqlite env (db_calls w)) (tg_id user) (users w) in
    let w' := store (users w) w in
    match account_data with
    | Some (name, usage, image_usage) =>
        (w', reply_markdown
               (myaccount_text (str_or name (opt_or (tg_username user) "User"))
                               usage image_usage))
    | None => (w', plain (reply_text msg_account_not_found))
    end.

Definition handle_mode_pedas : Command :=
  fun w => (set_mode SPICY w, reply_html msg_mode_pedas false).

Definition handle_mode_solusi : Command :=
  fun w => (set_mode SOLUTION w, reply_html msg_mode_solusi false).

Definition handle_about : Command :=
  fun w => (w, reply_html about_text true).

(** ** Schema of the database file: [_create_tables] *)

(** A row of a [users] table created before [image_usage_count] existed. *)
Record LegacyRecord : Type := mkLegacy {
  legacy_user_id : Z;
  legacy_username : string;
  legacy_join_time : string;
  legacy_usage_count : Z
}.

(** The database file: without a [users] table, with the four-column table
    of earlier versions, or with the current five-column table. *)
Inductive Database : Type :=
  | NoTable
  | LegacyTable (rows : list LegacyRecord)
  | UsersTable (rows : Table).

(** Where the engine raises [sqlite3.Error] during [_create_tables], if it
    does: opening the connection, the CREATE statement (or its commit), or
    the ALTER statement for a reason of the engine's own. *)
Inductive SchemaFault : Type :=
  | NoFault
  | ConnectFails
  | CreateFails
  | AlterFails.

(** [_create_tables] returns, or leaves with [UnboundLocalError]: it does
    not bind [conn] before the [try], so when the connection cannot be
    opened the [finally] clause reads a local that has no value. *)
Inductive SchemaOutcome : Type :=
  | TablesDone
  | UnboundLocalError.

(** [CREATE TABLE IF NOT EXISTS users (...)]. *)
Definition create_if_not_exists (db : Database) : Database :=
  match db with
  | NoTable => UsersTable nil
  | _ => db
  end.

Definition add_image_column (r : LegacyRecord) : UserRecord :=
  mkUser (legacy_user_id r) (legacy_username r) (legacy_join_time r)
         (legacy_usage_count r) 0.

(** [ALTER TABLE users ADD COLUMN image_usage_count INTEGER DEFAULT 0]:
    [None] is the [sqlite3.OperationalError] of a column that exists
    already, or of a table that does not. *)
Definition alter_add_column (db : Database) : option Database :=
  match db with
  | LegacyTable rows => Some (UsersTable (map add_image_column rows))
  | _ => None
  end.

Definition _create_tables (fault : SchemaFault) (db : Database)
  : SchemaOutcome * Database :=
  match fault with
  | ConnectFails => (UnboundLocalError, db)
  | CreateFails => (TablesDone, db)
  | AlterFails => (TablesDone, create_if_not_exists db)
  | NoFault =>
      match alter_add_column (create_if_not_exists db) with
      | Some db' => (TablesDone, db')
      | None => (TablesDone, create_if_not_exists db)
      end
  end.

(** The four columns every version of the table has, row by row. *)
Definition legacy_columns (r : UserRecord) : LegacyRecord :=
  mkLegacy (user_id r) (username r) (join_time r) (usage_count r).

Definition legacy_view (db : Database) : list LegacyRecord :=
  match db with
  | NoTable => nil
  | LegacyTable rows => rows
  | UsersTable rows => map legacy_columns rows
  end.

(** ** Sequences of store calls *)

(** A call of one of the writing methods of [DatabaseManager], with the
    status of the engine during it. *)
Inductive StoreCall : Type :=
  | CallAddUser (st : SqliteStatus) (now : string) (uid : Z) (name : string)
  | CallIncrement (st : SqliteStatus) (uid : Z) (f : Field).

Definition store_call (c : StoreCall) (t : Table) : Table :=
  match c with
  | CallAddUser st now uid name => snd (add_user st now uid name t)
  | CallIncrement st uid f => snd (_increment_field st uid f t)
  end.

Definition store_calls (cs : list StoreCall) (t : Table) : Table :=
  fold_left (fun acc c => store_call c acc) cs t.

(** [n] calls of [_increment_field] for the same user and field. *)
Fixpoint increment_times (n : nat) (uid : Z) (f : Field) (t : Table) : Table :=
  match n with
  | O => t
  | S n' => increment_times n' uid f (snd (_increment_field SqliteOk uid f t))
  end.

Definition counter (f : Field) (r : UserRecord) : Z :=
  match f with
  | F_usage_count => usage_count r
  | F_image_usage_count => image_usage_count r
  end.

(** [t'] differs from [t] at most in the counters of the rows of [uid]. *)
Definition only_counters_of (uid : Z) (t t' : Table) : Prop :=
  map user_id t' = map user_id t
  /\ (forall other, other <> uid -> select_user other t' = select_user other t)
  /\ (select_user uid t = None -> t' = t)
  /\ (forall r, select_user uid t = Some r ->
        exists r', select_user uid t' = Some r'
                   /\ username r' = username r /\ join_time r' = join_time r).

(** Every row of [t] is still in [t'], under the same identifier, with the
    same username and join time and with counters that are not smaller. *)
Definition grows (t t' : Table) : Prop :=
  forall uid r, select_user uid t = Some r ->
    exists r', select_user uid t' = Some r'
               /\ username r' = username r /\ join_time r' = join_time r
               /\ (usage_count r <= usage_count r')%Z
               /\ (image_usage_count r <= image_usage_count r')%Z.

(** The engine raises during no store call. *)
Definition healthy_store (env : Env) : Prop :=
  forall n, sqlite env n = SqliteOk.

(** The prompt [handle_text] builds for text [t] in mode [m]. *)
Definition prompt_of (m : BotMode) (t : string) : string :=
  prompt_prefix m ++ t ++ prompt_suffix m.

(** * Properties *)

(** ** Prompt builder *)

Section PromptBuilder.

Lemma append_nil_r (s : string) : s ++ EmptyString = s.
Proof. induction s as [|c s IH]; simpl; [reflexivity | now rewrite IH]. Qed.

(** Text without braces is copied as it stands. *)
Lemma format_scan_literal (lit rest text : string) :
  has_brace lit = false ->
  format_scan Literal (lit ++ rest) text
  = emit_str lit (format_scan Literal rest text).
Proof.
  induction lit as [|c lit IH]; simpl; intros H.
  - now destruct (format_scan Literal rest text).
  - apply orb_false_iff in H as [H Hlit].
    apply orb_false_iff in H as [Ho Hc].
    rewrite Ho, Hc, (IH Hlit).
    now destruct (format_scan Literal rest text).
Qed.

(** A template made of brace-free text around one [{text}] field. *)
Lemma format_one_field (pre post text : string) :
  has_brace pre = false ->
  has_brace post = false ->
  format (pre ++ "{text}" ++ post) text = Formatted (pre ++ text ++ post).
Proof.
  intros Hpre Hpost. unfold format.
  rewrite (format_scan_literal pre _ text Hpre). simpl.
  rewrite <- (append_nil_r post) at 1.
  rewrite (format_scan_literal post EmptyString text Hpost). simpl.
  now rewrite append_nil_r.
Qed.

Lemma prompts_shape (m : BotMode) :
  prompts m = prompt_prefix m ++ "{text}" ++ prompt_suffix m
  /\ has_brace (prompt_prefix m) = false
  /\ has_brace (prompt_suffix m) = false.
Proof. destruct m; vm_compute; auto. Qed.

Lemma build_prompt_eq (m : BotMode) (text : string) :
  build_prompt m text = Formatted (prompt_prefix m ++ text ++ prompt_suffix m).
Proof.
  destruct (prompts_shape m) as (Hs & Hpre & Hpost).
  unfold build_prompt. rewrite Hs. now apply format_one_field.
Qed.

Lemma prefix_self_app (a b : string) : prefix a (a ++ b) = true.
Proof. induction a as [|c a IH]; simpl.
  - now destruct b.
  - destruct (ascii_dec c c); [exact IH | contradiction].
Qed.

Lemma occurrences_skip (needle a b : string) :
  occurrences needle b <= occurrences needle (a ++ b).
Proof.
  induction a as [|c a IH]; simpl; [lia|].
  destruct (prefix needle (String c (a ++ b))); lia.
Qed.

Lemma occurrences_here (needle b : string) :
  1 <= occurrences needle (needle ++ b).
Proof.
  assert (U : forall h, (if prefix needle h then 1 else 0) <= occurrences needle h)
    by (intros h; destruct h; simpl; lia).
  specialize (U (needle ++ b)). now rewrite prefix_self_app in U.
Qed.

End PromptBuilder.

(** C8, as stated: the prompt holds the input text at exactly one position.
    It fails for a text that also reads in the template's own wording: the
    word roasting stands five times in the SPICY template, so the prompt
    built from it holds it at six positions. *)
Lemma C8_text_can_occur_more_than_once :
  exists p, build_prompt SPICY "roasting" = Formatted p
            /\ occurrences "roasting" p = 6.
Proof. eexists. split; vm_compute; reflexivity. Qed.

(** C8, amended: for both modes and every input text the prompt is a
    function of mode and text alone; it is the mode's template with its one
    [{text}] field replaced by the text, unchanged, between a fixed prefix
    and a fixed suffix, so the text occurs in it at least once. *)
Theorem C8_prompt_embeds_text (m : BotMode) (text : string) :
  exists p,
    build_prompt m text = Formatted p
    /\ p = prompt_prefix m ++ text ++ prompt_suffix m
    /\ occurrences "{text}" (prompts m) = 1
    /\ has_brace (prompt_prefix m) = false
    /\ has_brace (prompt_suffix m) = false
    /\ 1 <= occurrences text p.
Proof.
  exists (prompt_prefix m ++ text ++ prompt_suffix m).
  destruct (prompts_shape m) as (_ & Hpre & Hpost).
  repeat split; auto.
  - apply build_prompt_eq.
  - destruct m; vm_compute; reflexivity.
  - etransitivity; [apply occurrences_here | apply occurrences_skip].
Qed.

(** ** User store *)

Local Open Scope list_scope.

Section UserStore.

Lemma select_none_absent (uid : Z) (t : Table) :
  select_user uid t = None -> existsb (has_id uid) t = false.
Proof.
  unfold select_user. induction t as [|r t IH]; simpl; [reflexivity|].
  destruct (has_id uid r); [discriminate | exact IH].
Qed.

Lemma select_none_rows (uid : Z) (t : Table) :
  select_user uid t = None -> rows_of uid t = [].
Proof.
  unfold select_user, rows_of. induction t as [|r t IH]; simpl; [reflexivity|].
  destruct (has_id uid r); [discriminate | exact IH].
Qed.

Lemma update_rows_absent (f : Field) (uid : Z) (t : Table) :
  select_user uid t = None -> update_rows f uid t = t.
Proof.
  unfold select_user, update_rows. induction t as [|r t IH]; simpl; [reflexivity|].
  destruct (has_id uid r); [discriminate|].
  intros H. now rewrite (IH H).
Qed.

Lemma rows_of_app (uid : Z) (t t' : Table) :
  rows_of uid (t ++ t') = rows_of uid t ++ rows_of uid t'.
Proof. apply filter_app. Qed.

Lemma select_app_new (uid : Z) (t : Table) (r : UserRecord) :
  select_user uid t = None -> user_id r = uid ->
  select_user uid (t ++ [r]) = Some r.
Proof.
  unfold select_user. intros Hn Hr.
  induction t as [|r0 t IH]; simpl in *.
  - unfold has_id. rewrite Hr, Z.eqb_refl. reflexivity.
  - destruct (has_id uid r0); [discriminate | now apply IH].
Qed.

Lemma bump_id (f : Field) (r : UserRecord) : user_id (bump f r) = user_id r.
Proof. now destruct f. Qed.

Lemma update_rows_ids (f : Field) (uid : Z) (t : Table) :
  map user_id (update_rows f uid t) = map user_id t.
Proof.
  unfold update_rows. rewrite map_map. apply map_ext.
  intros r. destruct (has_id uid r); [apply bump_id | reflexivity].
Qed.

(** Both operations keep the key of the table unique. *)
Lemma increment_keeps_key st uid f t :
  primary_key t -> primary_key (snd (_increment_field st uid f t)).
Proof.
  unfold primary_key. destruct st; simpl; [|tauto].
  now rewrite update_rows_ids.
Qed.

Lemma add_user_keeps_key st now uid name t :
  primary_key t -> primary_key (snd (add_user st now uid name t)).
Proof.
  unfold primary_key, add_user, insert_user. intros H.
  destruct st; simpl; [|exact H].
  destruct (select_user uid t) eqn:E; simpl; [exact H|].
  rewrite (select_none_absent _ _ E). simpl.
  rewrite map_app. simpl.
  apply NoDup_app; [exact H | repeat constructor; intros [] | ].
  intros x Hin [Hx|[]]. subst x.
  apply in_map_iff in Hin as (r & Hr & Hin).
  assert (X : existsb (has_id uid) t = true)
    by (apply existsb_exists; exists r; split; [exact Hin | unfold has_id; rewrite Hr; apply Z.eqb_refl]).
  rewrite (select_none_absent _ _ E) in X. discriminate.
Qed.

(** The row an update leaves in place of [r]. *)
Lemma select_update_rows f uid uid' t r :
  select_user uid' t = Some r ->
  select_user uid' (update_rows f uid t)
  = Some (if has_id uid r then bump f r else r).
Proof.
  unfold select_user, update_rows.
  induction t as [|r0 t IH]; simpl; [discriminate|].
  assert (K : has_id uid' (if has_id uid r0 then bump f r0 else r0) = has_id uid' r0).
  { unfold has_id. destruct (user_id r0 =? uid)%Z; [now rewrite bump_id | reflexivity]. }
  rewrite K. destruct (has_id uid' r0).
  - intros [= ->]. reflexivity.
  - apply IH.
Qed.

Lemma counters_le_refl t : counters_le t t.
Proof. intros uid r H. exists r. repeat split; [exact H | lia | lia]. Qed.

Lemma counters_le_trans t1 t2 t3 :
  counters_le t1 t2 -> counters_le t2 t3 -> counters_le t1 t3.
Proof.
  intros H12 H23 uid r H.
  destruct (H12 uid r H) as (r2 & H2 & ? & ?).
  destruct (H23 uid r2 H2) as (r3 & H3 & ? & ?).
  exists r3. repeat split; [exact H3 | lia | lia].
Qed.

(** An increment never lowers a counter, whatever the engine does. *)
Lemma increment_counters_le st uid f t :
  counters_le t (snd (_increment_field st uid f t)).
Proof.
  destruct st; simpl; [|apply counters_le_refl].
  intros uid' r H. rewrite (select_update_rows f uid uid' t r H).
  eexists. split; [reflexivity|].
  destruct (has_id uid r); [destruct f; simpl|]; lia.
Qed.

(** An increment never raises: every engine error is caught. *)
Lemma increment_never_raises st uid f t :
  fst (_increment_field st uid f t)
  = Val match st with SqliteOk => true | SqliteFails => false end.
Proof. now destruct st. Qed.

Lemma add_user_never_raises st now uid name t :
  exists b, fst (add_user st now uid name t) = Val b.
Proof.
  unfold add_user, insert_user. destruct st; simpl; [|eexists; reflexivity].
  destruct (select_user uid t) eqn:E; simpl; [eexists; reflexivity|].
  rewrite (select_none_absent _ _ E). eexists; reflexivity.
Qed.

End UserStore.

(** C4, as stated: incrementing for an absent user returns a failure
    indicator.  It fails: the UPDATE matches no row, raises nothing, and the
    method returns [True]. *)
Lemma C4_absent_user_reports_success :
  select_user 42 [ani] = None
  /\ _increment_field SqliteOk 42 F_usage_count [ani] = (Val true, [ani]).
Proof. split; reflexivity. Qed.

(** C4, amended: for a user identifier that is not in the store the
    increment does not raise and leaves the table as it was; it returns
    [True] when the engine executed the statement, and [False] only when
    the engine itself raised an error. *)
Theorem C4_increment_absent_user (st : SqliteStatus) (uid : Z) (f : Field) (t : Table) :
  select_user uid t = None ->
  _increment_field st uid f t
  = (Val match st with SqliteOk => true | SqliteFails => false end, t).
Proof.
  intros H. destruct st; [|reflexivity].
  unfold _increment_field, except_sqlite3.
  now rewrite (update_rows_absent f uid t H).
Qed.

Lemma C4_increment_absent_user_witness :
  select_user 42 [ani] = None
  /\ _increment_field SqliteFails 42 F_image_usage_count [ani] = (Val false, [ani]).
Proof.
  split; [reflexivity|].
  apply (C4_increment_absent_user SqliteFails 42 F_image_usage_count [ani]).
  reflexivity.
Defined.

(** C7: adding the same new identifier twice, with a working database, the
    first call returns [True], the second returns [False] and changes
    nothing, and the table then holds exactly one row for the identifier:
    the one the first call inserted. *)
Theorem C7_add_user_twice (now1 now2 name1 name2 : string) (uid : Z) (t : Table) :
  select_user uid t = None ->
  fst (add_user SqliteOk now1 uid name1 t) = Val true
  /\ fst (add_user SqliteOk now2 uid name2 (snd (add_user SqliteOk now1 uid name1 t)))
     = Val false
  /\ snd (add_user SqliteOk now2 uid name2 (snd (add_user SqliteOk now1 uid name1 t)))
     = snd (add_user SqliteOk now1 uid name1 t)
  /\ rows_of uid (snd (add_user SqliteOk now2 uid name2
                                  (snd (add_user SqliteOk now1 uid name1 t))))
     = [mkUser uid name1 now1 0 0].
Proof.
  intros H.
  assert (E1 : add_user SqliteOk now1 uid name1 t
               = (Val true, (t ++ [mkUser uid name1 now1 0 0]))).
  { unfold add_user, insert_user. simpl.
    now rewrite H, (select_none_absent _ _ H). }
  assert (E2 : add_user SqliteOk now2 uid name2 (t ++ [mkUser uid name1 now1 0 0])
               = (Val false, (t ++ [mkUser uid name1 now1 0 0]))).
  { unfold add_user. simpl.
    now rewrite (select_app_new uid t (mkUser uid name1 now1 0 0) H eq_refl). }
  rewrite E1. simpl. rewrite E2. simpl.
  repeat split.
  rewrite rows_of_app, (select_none_rows _ _ H). simpl.
  unfold has_id. simpl. now rewrite Z.eqb_refl.
Qed.

Lemma C7_add_user_twice_witness :
  select_user 8 [ani] = None
  /\ fst (add_user SqliteOk "2024-05-02T09:00:00" 8 "budi" [ani]) = Val true
  /\ fst (add_user SqliteOk "2024-05-03T09:00:00" 8 "budi2"
            (snd (add_user SqliteOk "2024-05-02T09:00:00" 8 "budi" [ani]))) = Val false
  /\ rows_of 8 (snd (add_user SqliteOk "2024-05-03T09:00:00" 8 "budi2"
                       (snd (add_user SqliteOk "2024-05-02T09:00:00" 8 "budi" [ani]))))
     = [mkUser 8 "budi" "2024-05-02T09:00:00" 0 0].
Proof.
  split; [reflexivity|].
  destruct (C7_add_user_twice "2024-05-02T09:00:00" "2024-05-03T09:00:00"
              "budi" "budi2" 8 [ani] eq_refl) as (H1 & H2 & _ & H4).
  exact (conj H1 (conj H2 H4)).
Defined.

(** C9: adding a user whose identifier already has a row returns [False]
    and leaves the whole table, hence that row with its username, join time
    and both counters, as it was, whatever username is supplied and
    whether or not the engine raises. *)
Theorem C9_add_existing_user_changes_nothing
        (st : SqliteStatus) (now name : string) (uid : Z) (t : Table) (r : UserRecord) :
  select_user uid t = Some r ->
  add_user st now uid name t = (Val false, t)
  /\ select_user uid (snd (add_user st now uid name t)) = Some r.
Proof.
  intros H.
  assert (E : add_user st now uid name t = (Val false, t)).
  { unfold add_user. destruct st; simpl; [|reflexivity]. now rewrite H. }
  rewrite E. split; [reflexivity | exact H].
Qed.

Lemma C9_add_existing_user_changes_nothing_witness :
  select_user 7 [ani] = Some ani
  /\ add_user SqliteOk "2030-01-01T00:00:00" 7 "another_name" [ani] = (Val false, [ani]).
Proof.
  split; [reflexivity|].
  exact (proj1 (C9_add_existing_user_changes_nothing
                  SqliteOk "2030-01-01T00:00:00" "another_name" 7 [ani] ani eq_refl)).
Defined.

(** ** Retry orchestrator with a transport that lets every call through *)

Section ReliableTransport.

Variable env : Env.
Hypothesis transport_ok : reliable env.

Variables (process_func : Work) (process_input fallback_message : string).

Let attempt' := attempt env process_func process_input fallback_message.
Let loop' := retry_loop env process_func process_input fallback_message.

Lemma at_invocation_work_calls w : work_calls (at_invocation w) = work_calls w.
Proof. reflexivity. Qed.

Ltac run_pass :=
  unfold attempt', attempt, try_except, bind, bot_call, invoke, get_mode, sleep, ret;
  repeat (cbn [result final events app]; rewrite ?transport_ok).

Lemma attempt_content (n : nat) (w : World) (s : string) :
  process_func process_input (at_invocation w) = Val s ->
  truthy s = true ->
  attempt' n w
  = mkRun (Val (Some s)) (tick_work (at_invocation w))
          (opening_calls (bot_mode w) ++ [Invoked process_input (Val s)]).
Proof.
  intros Hs Ht. run_pass. fold (at_invocation w). rewrite Hs.
  cbn [result final events app]. rewrite Ht. reflexivity.
Qed.

Lemma attempt_empty (n : nat) (w : World) :
  process_func process_input (at_invocation w) = Val EmptyString ->
  attempt' n w
  = mkRun (Val (Some EmptyString)) (tick_bot (tick_work (at_invocation w)))
          (opening_calls (bot_mode w)
           ++ [Invoked process_input (Val EmptyString);
               Called (reply_text msg_speechless) true]).
Proof.
  intros Hs. run_pass. fold (at_invocation w). rewrite Hs.
  repeat (cbn [result final events app truthy]; rewrite ?transport_ok).
  reflexivity.
Qed.

Lemma attempt_raise_again (n : nat) (w : World) (e : Exn) :
  process_func process_input (at_invocation w) = Exc e ->
  n < max_retries ->
  attempt' n w
  = mkRun (Val None) (tick_bot (tick_work (at_invocation w)))
          (opening_calls (bot_mode w)
           ++ [Invoked process_input (Exc e);
               Called (edit_message_text (status_retry (bot_mode w) (n + 1)) PlainText) true;
               Slept retry_delay]).
Proof.
  intros Hs Hn. apply Nat.ltb_lt in Hn.
  run_pass. fold (at_invocation w). rewrite Hs.
  repeat (cbn [result final events app bot_mode tick_work tick_bot at_invocation];
          rewrite ?transport_ok, ?Hn).
  reflexivity.
Qed.


Lemma loop_step_return n rest w s w' evs :
  attempt' n w = mkRun (Val (Some s)) w' evs ->
  loop' (n :: rest) w = mkRun (Val s) w' (evs ++ []).
Proof.
  intros H. unfold loop'. cbn [retry_loop]. unfold bind.
  unfold attempt' in H. rewrite H. reflexivity.
Qed.

Lemma loop_step_next n rest w w' evs :
  attempt' n w = mkRun (Val None) w' evs ->
  loop' (n :: rest) w
  = mkRun (result (loop' rest w')) (final (loop' rest w'))
          (evs ++ events (loop' rest w')).
Proof.
  intros H. unfold loop'. cbn [retry_loop]. unfold bind.
  unfold attempt' in H. rewrite H.
  now destruct (retry_loop env process_func process_input fallback_message rest w').
Qed.

Lemma sleeps_app evs evs' : sleeps (evs ++ evs') = sleeps evs ++ sleeps evs'.
Proof.
  induction evs as [|e evs IH]; [reflexivity|].
  destruct e; simpl; now rewrite IH.
Qed.

Lemma invocations_app evs evs' :
  invocations (evs ++ evs') = invocations evs + invocations evs'.
Proof.
  induction evs as [|e evs IH]; [reflexivity|].
  destruct e; simpl; now rewrite IH.
Qed.

(** The work raises [k] times and then returns content: the loop, started
    at a retry count that leaves more than [k] passes, stops at pass
    [k + 1] with that content. *)
Lemma loop_content_after (k : nat) :
  forall first passes w content,
    first + passes = S max_retries ->
    k < passes ->
    (forall i, i < k -> fails_at process_func process_input (work_calls w + i)) ->
    returns_at process_func process_input (work_calls w + k) content ->
    truthy content = true ->
    result (loop' (seq first passes) w) = Val content
    /\ work_calls (final (loop' (seq first passes) w)) = work_calls w + S k
    /\ invocations (events (loop' (seq first passes) w)) = S k
    /\ sleeps (events (loop' (seq first passes) w)) = repeat retry_delay k.
Proof.
  induction k as [|k IH]; intros first passes w content Hsum Hk Hfail Hret Htruthy;
    destruct passes as [|passes]; try lia; cbn [seq].
  - assert (E : process_func process_input (at_invocation w) = Val content)
      by (apply Hret; rewrite at_invocation_work_calls; lia).
    rewrite (loop_step_return _ _ _ _ _ _ (attempt_content first w content E Htruthy)).
    cbn [result final events]. repeat split.
    + cbn. lia.
  - destruct (Hfail 0 ltac:(lia) (at_invocation w)) as [e E];
      [rewrite at_invocation_work_calls; lia|].
    assert (Hlt : first < max_retries) by lia.
    rewrite (loop_step_next _ _ _ _ _ (attempt_raise_again first w e E Hlt)).
    cbn [result final events].
    set (w' := tick_bot (tick_work (at_invocation w))).
    assert (Hw' : work_calls w' = S (work_calls w)) by reflexivity.
    destruct (IH (S first) passes w' content) as (H1 & H2 & H3 & H4);
      try lia; try assumption.
    + intros i Hi. rewrite Hw'.
      replace (S (work_calls w) + i) with (work_calls w + S i) by lia.
      apply Hfail. lia.
    + rewrite Hw'.
      now replace (S (work_calls w) + k) with (work_calls w + S k) by lia.
    + rewrite H1, H2, Hw', invocations_app, sleeps_app, H3, H4.
      repeat split; cbn; lia.
Qed.


End ReliableTransport.





(** ** Retry orchestrator with arbitrary collaborators *)

Section AnyCollaborators.

Variable env : Env.
Variables (process_func : Work) (process_input fallback_message : string).

Lemma has_increment_app evs evs' :
  has_increment (evs ++ evs') = has_increment evs || has_increment evs'.
Proof. apply existsb_app. Qed.

Lemma same_state_refl w : same_state w w.
Proof. repeat split. Qed.

Lemma same_state_trans w1 w2 w3 :
  same_state w1 w2 -> same_state w2 w3 -> same_state w1 w3.
Proof.
  unfold same_state. intros (?&?&?&?) (?&?&?&?). repeat split; congruence.
Qed.

Ltac branch :=
  match goal with
  | |- context [transport ?e ?n ?c] => destruct (transport e n c) eqn:?
  | |- context [process_func ?i ?w] =>
      let r := fresh "res" in
      let E := fresh "Eres" in
      destruct (process_func i w) as [r|r] eqn:E
  | |- context [truthy ?s] => destruct (truthy s) eqn:?
  | |- context [(?n <? max_retries)%nat] => destruct (n <? max_retries)%nat eqn:?
  end.

Ltac invoked_cases :=
  let i := fresh "i" in
  let res := fresh "res" in
  let H := fresh "H" in
  intros i res H; cbn [In] in H;
  repeat (destruct H as [H|H]; try discriminate H);
  first [ contradiction
        | injection H as <- <-;
          split; [reflexivity | eexists; split; [|symmetry; eassumption]; reflexivity] ].

Ltac resolved_case :=
  cbn [result events];
  first [ exact I
        | reflexivity
        | left; reflexivity
        | right; left; reflexivity
        | right; right; split; [assumption | cbn [In]; tauto] ].

(** One pass. *)
Lemma attempt_any (n : nat) (w : World) :
  quiet process_func process_input w
        (events (attempt env process_func process_input fallback_message n w))
        (final (attempt env process_func process_input fallback_message n w))
  /\ match result (attempt env process_func process_input fallback_message n w) with
     | Val (Some s) =>
         resolved process_input fallback_message
           (events (attempt env process_func process_input fallback_message n w)) s
     | Val None => True
     | Exc e => e = TelegramError
     end.
Proof.
  unfold attempt, try_except, bind, bot_call, invoke, get_mode, sleep, ret.
  repeat (cbn [result final events app]; try branch);
    (split;
     [ split; [repeat split | split; [reflexivity | invoked_cases]]
     | resolved_case ]).
Qed.

Lemma quiet_app w evs1 w1 evs2 w2 :
  quiet process_func process_input w evs1 w1 ->
  quiet process_func process_input w1 evs2 w2 ->
  quiet process_func process_input w (evs1 ++ evs2) w2.
Proof.
  intros (S1 & I1 & V1) (S2 & I2 & V2). split; [|split].
  - eapply same_state_trans; eassumption.
  - now rewrite has_increment_app, I1, I2.
  - intros i res H. apply in_app_or in H as [H|H].
    + now apply V1.
    + destruct (V2 i res H) as (-> & wi & Hf & ->).
      split; [reflexivity|]. exists wi. split; [|reflexivity].
      destruct S1 as (_ & _ & Hfiles & _). congruence.
Qed.

Lemma resolved_app_r evs1 evs2 s :
  resolved process_input fallback_message evs2 s ->
  resolved process_input fallback_message (evs1 ++ evs2) s.
Proof.
  intros [H|[H|[H1 H2]]]; [now left | now right; left |].
  right; right. split; [exact H1 | apply in_or_app; now right].
Qed.

Lemma resolved_app_l evs1 evs2 s :
  resolved process_input fallback_message evs1 s ->
  resolved process_input fallback_message (evs1 ++ evs2) s.
Proof.
  intros [H|[H|[H1 H2]]]; [now left | now right; left |].
  right; right. split; [exact H1 | apply in_or_app; now left].
Qed.

(** The loop, over any list of retry counts. *)
Lemma retry_loop_any (retry_counts : list nat) :
  forall w,
    quiet process_func process_input w
          (events (retry_loop env process_func process_input fallback_message
                              retry_counts w))
          (final (retry_loop env process_func process_input fallback_message
                             retry_counts w))
    /\ match result (retry_loop env process_func process_input fallback_message
                                retry_counts w) with
       | Val s =>
           resolved process_input fallback_message
             (events (retry_loop env process_func process_input fallback_message
                                 retry_counts w)) s
       | Exc e => e = TelegramError
       end.
Proof.
  induction retry_counts as [|n rest IH]; intros w; cbn [retry_loop].
  - split; [|right; left; reflexivity].
    split; [apply same_state_refl | split; [reflexivity | intros ? ? []]].
  - unfold bind, ret.
    pose proof (attempt_any n w) as [Q R].
    destruct (attempt env process_func process_input fallback_message n w)
      as [[[s|]|e] w1 evs1]; cbn [result final events] in *.
    + rewrite app_nil_r. split; assumption.
    + specialize (IH w1).
      destruct (retry_loop env process_func process_input fallback_message rest w1)
        as [r2 w2 evs2]; cbn [result final events] in *.
      destruct IH as [Q2 R2]. split; [eapply quiet_app; eassumption|].
      destruct r2; [now apply resolved_app_r | exact R2].
    + split; assumption.
Qed.

Lemma _process_with_retry_any (w : World) :
  quiet process_func process_input w
        (events (_process_with_retry env process_func process_input fallback_message w))
        (final (_process_with_retry env process_func process_input fallback_message w))
  /\ match result (_process_with_retry env process_func process_input
                                       fallback_message w) with
     | Val s =>
         resolved process_input fallback_message
           (events (_process_with_retry env process_func process_input
                                        fallback_message w)) s
     | Exc e => e = TelegramError
     end.
Proof. apply retry_loop_any. Qed.

(** With a transport that lets every call through no pass raises, hence
    neither does the loop. *)
Lemma attempt_reliable (n : nat) (w : World) :
  reliable env ->
  exists o, result (attempt env process_func process_input fallback_message n w) = Val o.
Proof.
  intros Hok.
  unfold attempt, try_except, bind, bot_call, invoke, get_mode, sleep, ret.
  repeat (cbn [result final events app]; rewrite ?Hok; try branch);
    eexists; reflexivity.
Qed.

Lemma retry_loop_reliable (retry_counts : list nat) :
  reliable env ->
  forall w, exists s,
    result (retry_loop env process_func process_input fallback_message retry_counts w)
    = Val s.
Proof.
  intros Hok.
  induction retry_counts as [|n rest IH]; intros w; cbn [retry_loop].
  - eexists. reflexivity.
  - unfold bind, ret. destruct (attempt_reliable n w Hok) as [o Ho].
    destruct (attempt env process_func process_input fallback_message n w)
      as [r1 w1 evs1]; cbn [result] in Ho; subst r1.
    destruct o as [s|].
    + eexists. reflexivity.
    + destruct (IH w1) as [s Hs].
      destruct (retry_loop env process_func process_input fallback_message rest w1)
        as [r2 w2 evs2]; cbn [result] in *. subst r2. eexists. reflexivity.
Qed.

(** With such a transport the orchestrator always returns, and what it
    returns is the empty string, the fallback or content of the work. *)
Lemma orchestrator_resolves_when_reliable (w : World) :
  reliable env ->
  exists s,
    result (_process_with_retry env process_func process_input fallback_message w)
    = Val s
    /\ resolved process_input fallback_message
         (events (_process_with_retry env process_func process_input
                                      fallback_message w)) s.
Proof.
  intros Hok.
  destruct (retry_loop_reliable (seq 1 max_retries) Hok w) as [s Hs].
  exists s. split; [exact Hs|].
  pose proof (_process_with_retry_any w) as [_ R].
  unfold _process_with_retry in *. now rewrite Hs in R.
Qed.

End AnyCollaborators.

(** ** The message handlers *)

Section Handlers.

Variable env : Env.

Ltac branch_bot :=
  match goal with
  | |- context [transport ?e ?n ?c] => destruct (transport e n c) eqn:?
  end.

Lemma generated_app evs evs' : generated (evs ++ evs') = generated evs ++ generated evs'.
Proof.
  induction evs as [|e evs IH]; [reflexivity|].
  destruct e as [| i [s|x] | |]; simpl; now rewrite IH.
Qed.

Lemma generated_in input s evs : In (Invoked input (Val s)) evs -> In s (generated evs).
Proof.
  induction evs as [|e evs IH]; [intros []|].
  intros [->|H]; [now left|].
  destruct e as [| i [s'|x] | |]; simpl; auto.
Qed.

Lemma resolved_truthy input fallback evs s :
  resolved input fallback evs s -> truthy s = true ->
  In s (generated evs) \/ s = fallback.
Proof.
  intros [->|[->|[_ H]]] Ht; [discriminate | now right | left].
  eapply generated_in; eassumption.
Qed.

Lemma not_invoked evs i res : invocations evs = 0 -> ~ In (Invoked i res) evs.
Proof.
  induction evs as [|e evs IH]; [intros _ []|].
  destruct e; simpl; intros H [E|E]; try discriminate; now apply IH.
Qed.

Ltac run_tail :=
  unfold bind, bot_call, db_increment, ret;
  repeat (cbn [result final events app]; rewrite ?increment_never_raises;
          try branch_bot).

Lemma text_tail_cases (uid : Z) (s : string) (w : World) :
  files (final (text_tail env uid s w)) = files w
  /\ invocations (events (text_tail env uid s w)) = 0
  /\ counters_le (users w) (users (final (text_tail env uid s w)))
  /\ ((has_increment (events (text_tail env uid s w)) = false
       /\ users (final (text_tail env uid s w)) = users w)
      \/ (truthy s = true
          /\ exists st ok, events (text_tail env uid s w) = text_relay uid s st ok)).
Proof.
  unfold text_tail, text_relay. destruct (truthy s) eqn:Ht.
  - run_tail;
      (split; [reflexivity|]); (split; [reflexivity|]);
      (split; [first [apply counters_le_refl | apply increment_counters_le]|]);
      first [ left; split; reflexivity
            | right; split; [reflexivity | eexists; eexists; reflexivity] ].
  - cbn. split; [reflexivity|]. split; [reflexivity|].
    split; [apply counters_le_refl|]. left. split; reflexivity.
Qed.

Lemma two_increments_le st1 st2 uid t :
  counters_le t
    (snd (_increment_field st2 uid F_image_usage_count
            (snd (_increment_field st1 uid F_usage_count t)))).
Proof.
  eapply counters_le_trans; apply increment_counters_le.
Qed.

Lemma image_tail_cases (uid : Z) (s : string) (w : World) :
  files (final (image_tail env uid s w)) = files w
  /\ invocations (events (image_tail env uid s w)) = 0
  /\ counters_le (users w) (users (final (image_tail env uid s w)))
  /\ ((has_increment (events (image_tail env uid s w)) = false
       /\ users (final (image_tail env uid s w)) = users w)
      \/ (truthy s = true
          /\ exists st1 st2 ok,
               events (image_tail env uid s w) = image_relay uid s st1 st2 ok)).
Proof.
  unfold image_tail, image_relay. destruct (truthy s) eqn:Ht.
  - run_tail;
      (split; [reflexivity|]); (split; [reflexivity|]);
      (split; [first [apply counters_le_refl | apply two_increments_le]|]);
      first [ left; split; reflexivity
            | right; split; [reflexivity | do 3 eexists; reflexivity] ].
  - cbn. split; [reflexivity|]. split; [reflexivity|].
    split; [apply counters_le_refl|]. left. split; reflexivity.
Qed.

(** The handlers, with the part after the orchestrator named. *)
Lemma handle_text_unfold (update : Update) :
  handle_text env update
  = match message_text update with
    | None => bot_call env (reply_text msg_need_text)
    | Some user_copywriting =>
        if truthy user_copywriting then
          bot_call env send_chat_action ;;
          bot_call env (reply_text msg_text_received) ;;
          current_mode <- get_mode ;;
          match build_prompt current_mode user_copywriting with
          | Formatted prompt =>
              response_text <-
                _process_with_retry env (_generate_text_response env) prompt
                                    fallback_text ;;
              text_tail env (effective_user_id update) response_text
          | _ => raise FormatError
          end
        else bot_call env (reply_text msg_need_text)
    end.
Proof. reflexivity. Qed.

Lemma handle_image_unfold (update : Update) :
  handle_image env update
  = match rev (message_photo update) with
    | [] => raise IndexError
    | file_id :: _ =>
        bot_call env send_chat_action ;;
        bot_call env (reply_text msg_image_received) ;;
        bot_call env (get_file file_id) ;;
        download env (image_path_of file_id) ;;
        try_finally
          (response_text <-
             _process_with_retry env (_generate_image_response env)
                                 (image_path_of file_id) fallback_image ;;
           image_tail env (effective_user_id update) response_text)
          (cleanup env (image_path_of file_id))
    end.
Proof. reflexivity. Qed.

Lemma present_remove (p : string) (fs : list string) :
  existsb (String.eqb p) (remove string_dec p fs) = false.
Proof.
  induction fs as [|x fs IH]; [reflexivity|]. simpl.
  destruct (string_dec p x) as [E|N]; [exact IH|]. simpl.
  rewrite IH. now apply String.eqb_neq in N as ->.
Qed.

(** The [finally] block never raises and reports nothing; it removes the
    file when the file is there and the file system allows it. *)
Lemma cleanup_run (p : string) (w : World) :
  cleanup env p w
  = mkRun (Val tt)
          (if present p w && unlink_ok env p
           then set_files (remove string_dec p (files w)) w else w)
          [].
Proof.
  unfold cleanup, try_except, bind, path_exists, unlink, ret.
  cbn [result final events app].
  destruct (present p w) eqn:Hp; cbn [andb result final events app]; [|reflexivity].
  rewrite Hp. cbn [andb].
  destruct (unlink_ok env p); reflexivity.
Qed.

End Handlers.

Section HandlerRuns.

Variable env : Env.

Ltac branch_bot :=
  match goal with
  | |- context [transport ?e ?n ?c] => destruct (transport e n c) eqn:?
  end.

Ltac no_count :=
  repeat split;
  first [ exact (counters_le_refl _)
        | intros _; reflexivity
        | intros X; cbn [has_increment existsb is_increment orb] in X;
          discriminate X ].

Lemma handle_text_counts (update : Update) (w : World) :
  counters_le (users w) (users (final (handle_text env update w)))
  /\ (has_increment (events (handle_text env update w)) = false ->
      users (final (handle_text env update w)) = users w)
  /\ (has_increment (events (handle_text env update w)) = true ->
      exists before s st ok,
        events (handle_text env update w)
        = before ++ text_relay (effective_user_id update) s st ok
        /\ has_increment before = false
        /\ truthy s = true
        /\ (In s (generated before) \/ s = fallback_text)).
Proof.
  rewrite handle_text_unfold.
  destruct (message_text update) as [t|]; [destruct (truthy t) eqn:Ht|];
    [ | unfold bot_call; cbn [result final events]; no_count
      | unfold bot_call; cbn [result final events]; no_count ].
  unfold bind, bot_call, get_mode.
  branch_bot; cbn [result final events app]; [|no_count].
  branch_bot; cbn [result final events app]; [|no_count].
  rewrite build_prompt_eq.
  set (w2 := tick_bot (tick_bot w)).
  set (prompt := (prompt_prefix (bot_mode w2) ++ t ++ prompt_suffix (bot_mode w2))%string).
  pose proof (_process_with_retry_any env (_generate_text_response env) prompt
                fallback_text w2) as [Q R].
  destruct (_process_with_retry env (_generate_text_response env) prompt fallback_text w2)
    as [[s|e] w3 evs3]; cbn [result final events] in *.
  all: swap 1 2.
  - destruct Q as ((_ & U & _) & I & _). cbn [has_increment existsb is_increment orb].
    fold (has_increment evs3). rewrite I, U. no_count.
  - pose proof (text_tail_cases env (effective_user_id update) s w3)
      as (_ & _ & C & D).
    destruct (text_tail env (effective_user_id update) s w3) as [r4 w4 evs4].
    cbn [result final events] in *.
    destruct Q as ((_ & U & _) & I & _).
    assert (Uw : users w3 = users w) by exact U.
    rewrite Uw in *.
    cbn [has_increment existsb is_increment orb].
    fold (has_increment (evs3 ++ evs4)). rewrite has_increment_app, I.
    cbn [orb].
    split; [exact C|].
    destruct D as [[N E]|[Ht' (st & ok & E)]].
    + rewrite N. split; [intros _; exact E | intros X; discriminate X].
    + subst evs4. split; [intros X; discriminate X | intros _].
      exists (Called send_chat_action true
              :: Called (reply_text msg_text_received) true :: evs3), s, st, ok.
      split; [reflexivity|]. split; [exact I|]. split; [exact Ht'|].
      destruct (resolved_truthy _ _ _ _ R Ht') as [G|G]; [left | now right].
      cbn [generated]. exact G.
Qed.

Lemma present_head (p : string) (w w' : World) (fs : list string) :
  files w' = p :: fs -> files w = files w' -> present p w = true.
Proof.
  unfold present. intros H ->. rewrite H. cbn. now rewrite String.eqb_refl.
Qed.

Ltac not_started :=
  split; [exact (counters_le_refl _)|];
  split; [intros _; reflexivity|];
  split; [intros X; cbn [has_increment existsb is_increment orb] in X;
          discriminate X|];
  split; [ intros ? ? X; cbn [In] in X;
           repeat (destruct X as [X|X]; try discriminate X); contradiction
         | intros _; right; repeat split ].

(** Every run of the image handler on an update with a photo. *)
Lemma handle_image_run (update : Update) (w : World) (file_id : string)
      (smaller : list string) :
  rev (message_photo update) = file_id :: smaller ->
  counters_le (users w) (users (final (handle_image env update w)))
  /\ (has_increment (events (handle_image env update w)) = false ->
      users (final (handle_image env update w)) = users w)
  /\ (has_increment (events (handle_image env update w)) = true ->
      exists before s st1 st2 ok,
        events (handle_image env update w)
        = before ++ image_relay (effective_user_id update) s st1 st2 ok
        /\ has_increment before = false
        /\ truthy s = true
        /\ (In s (generated before) \/ s = fallback_image))
  /\ (forall i res,
        In (Invoked i res) (events (handle_image env update w)) ->
        i = image_path_of file_id
        /\ exists wi, present (image_path_of file_id) wi = true
                      /\ res = _generate_image_response env (image_path_of file_id) wi)
  /\ (unlink_ok env (image_path_of file_id) = true ->
      present (image_path_of file_id) (final (handle_image env update w)) = false
      \/ (result (handle_image env update w) = Exc TelegramError
          /\ files (final (handle_image env update w)) = files w
          /\ invocations (events (handle_image env update w)) = 0)).
Proof.
  intros Hphoto.
  rewrite handle_image_unfold, Hphoto.
  set (p := image_path_of file_id) in *.
  unfold download, bind, bot_call, try_finally.
  branch_bot; cbn [result final events app]; [|not_started].
  branch_bot; cbn [result final events app]; [|not_started].
  branch_bot; cbn [result final events app]; [|not_started].
  branch_bot; cbn [result final events app]; [|not_started].
  set (w4 := set_files (p :: files (tick_bot (tick_bot (tick_bot (tick_bot w)))))
                       (tick_bot (tick_bot (tick_bot (tick_bot w))))).
  assert (F4 : files w4 = p :: files w) by reflexivity.
  pose proof (_process_with_retry_any env (_generate_image_response env) p
                fallback_image w4) as [Q R].
  destruct (_process_with_retry env (_generate_image_response env) p fallback_image w4)
    as [[s|e] w5 evs5]; cbn [result final events] in *.
  all: destruct Q as ((_ & U & F & _) & I & V).
  all: assert (Uw : users w5 = users w) by exact U.
  - pose proof (image_tail_cases env (effective_user_id update) s w5)
      as (F6 & N6 & C & D).
    destruct (image_tail env (effective_user_id update) s w5) as [r6 w6 evs6].
    cbn [result final events] in *.
    assert (P6 : present p w6 = true)
      by (eapply (present_head p w6 w4); [exact F4 | congruence]).
    rewrite cleanup_run, P6. cbn [andb result final events app]. rewrite app_nil_r.
    set (w7 := if unlink_ok env p
               then set_files (remove string_dec p (files w6)) w6 else w6).
    assert (U7 : users w7 = users w6) by (unfold w7; now destruct (unlink_ok env p)).
    assert (P7 : unlink_ok env p = true -> present p w7 = false).
    { intros Hu. unfold w7. rewrite Hu. apply present_remove. }
    rewrite U7, Uw in *.
    cbn [has_increment existsb is_increment orb].
    fold (has_increment (evs5 ++ evs6)). rewrite has_increment_app, I. cbn [orb].
    split; [exact C|].
    split; [destruct D as [[N E]|[_ (st1 & st2 & ok & E)]];
            [intros _; exact E | subst evs6; intros X; discriminate X]|].
    split; [|split].
    + destruct D as [[N E]|[Ht' (st1 & st2 & ok & E)]];
        [rewrite N; intros X; discriminate X | intros _].
      subst evs6.
      exists (Called send_chat_action true
              :: Called (reply_text msg_image_received) true
              :: Called (get_file file_id) true
              :: Called (download_to_drive p) true :: evs5), s, st1, st2, ok.
      split; [reflexivity|]. split; [exact I|]. split; [exact Ht'|].
      destruct (resolved_truthy _ _ _ _ R Ht') as [G|G]; [left | now right].
      cbn [generated]. exact G.
    + intros i res X. cbn [In] in X.
      repeat (destruct X as [X|X]; try discriminate X).
      apply in_app_or in X as [X|X]; [|now apply not_invoked in X].
      destruct (V i res X) as (-> & wi & Fi & ->).
      split; [reflexivity|]. exists wi. split; [|reflexivity].
      eapply (present_head p wi w4); [exact F4 | exact Fi].
    + intros Hu. left. exact (P7 Hu).
  - assert (P5 : present p w5 = true)
      by (eapply (present_head p w5 w4); [exact F4 | exact F]).
    rewrite cleanup_run, P5. cbn [andb result final events app]. rewrite app_nil_r.
    set (w7 := if unlink_ok env p
               then set_files (remove string_dec p (files w5)) w5 else w5).
    assert (U7 : users w7 = users w5) by (unfold w7; now destruct (unlink_ok env p)).
    assert (P7 : unlink_ok env p = true -> present p w7 = false).
    { intros Hu. unfold w7. rewrite Hu. apply present_remove. }
    cbn [has_increment existsb is_increment orb].
    fold (has_increment evs5). rewrite I, U7, Uw.
    split; [exact (counters_le_refl _)|].
    split; [intros _; reflexivity|].
    split; [intros X; discriminate X|].
    split.
    + intros i res X. cbn [In] in X.
      repeat (destruct X as [X|X]; try discriminate X).
      destruct (V i res X) as (-> & wi & Fi & ->).
      split; [reflexivity|]. exists wi. split; [|reflexivity].
      eapply (present_head p wi w4); [exact F4 | exact Fi].
    + intros Hu. left. exact (P7 Hu).
Qed.

End HandlerRuns.

(** ** The claims about the handlers *)

(** C2, as stated: no counter moves on a path where only the fallback text
    is delivered.  It fails: the backend raises at all three attempts, the
    work never returns anything, the orchestrator returns the fallback text,
    and the text handler counts a use before sending it. *)
Lemma C2_fallback_counts_as_usage :
  generated (events (handle_text (mock_env [] (always GenRaises))
                                 (text_update "Beli sekarang juga!")
                                 (fresh_world SPICY))) = []
  /\ replies (events (handle_text (mock_env [] (always GenRaises))
                                  (text_update "Beli sekarang juga!")
                                  (fresh_world SPICY)))
     = [msg_text_received; fallback_text]
  /\ users (fresh_world SPICY) = [mkUser 7 "ani" "2024-05-01T10:00:00" 0 0]
  /\ users (final (handle_text (mock_env [] (always GenRaises))
                               (text_update "Beli sekarang juga!")
                               (fresh_world SPICY)))
     = [mkUser 7 "ani" "2024-05-01T10:00:00" 1 0].
Proof. repeat split; vm_compute; reflexivity. Qed.

(** C2, amended: the counters never decrease.  A handler run changes the
    store only by counting, and it counts only when the orchestrator
    returned a non-empty string, which is content the work returned in this
    run or the handler's fallback text.  The run then ends with: the
    status message deleted, [usage_count] incremented (for an image also
    [image_usage_count]), that string sent.  The counting precedes the
    sending and does not wait for it to go through. *)
Theorem C2_counters_follow_orchestrator (env : Env) (update : Update) (w : World) :
  (counters_le (users w) (users (final (handle_text env update w)))
   /\ (has_increment (events (handle_text env update w)) = false ->
       users (final (handle_text env update w)) = users w)
   /\ (has_increment (events (handle_text env update w)) = true ->
       exists before s st ok,
         events (handle_text env update w)
         = before ++ text_relay (effective_user_id update) s st ok
         /\ has_increment before = false
         /\ truthy s = true
         /\ (In s (generated before) \/ s = fallback_text)))
  /\ (counters_le (users w) (users (final (handle_image env update w)))
      /\ (has_increment (events (handle_image env update w)) = false ->
          users (final (handle_image env update w)) = users w)
      /\ (has_increment (events (handle_image env update w)) = true ->
          exists before s st1 st2 ok,
            events (handle_image env update w)
            = before ++ image_relay (effective_user_id update) s st1 st2 ok
            /\ has_increment before = false
            /\ truthy s = true
            /\ (In s (generated before) \/ s = fallback_image))).
Proof.
  split; [apply handle_text_counts|].
  destruct (rev (message_photo update)) as [|file_id smaller] eqn:Hphoto.
  - rewrite handle_image_unfold, Hphoto. cbn.
    repeat split; [exact (counters_le_refl _) | intros X; discriminate X].
  - destruct (handle_image_run env update w file_id smaller Hphoto) as (A & B & C & _).
    exact (conj A (conj B C)).
Qed.

(** C5: the file system letting the file be deleted, every run of the image
    handler on a photo, whatever transport and backend do and whether it
    returns or raises, ends without the temporary file, unless it failed
    before the download completed, in which case it raised, invoked nothing
    and left the directory as it found it; so a path that was free before
    the run is free after it, on every exit path.  Each invocation of the
    work during the run is on the path of the file and finds the file in
    place. *)
Theorem C5_temp_file_removed
        (env : Env) (update : Update) (w : World) (file_id : string)
        (smaller : list string) :
  rev (message_photo update) = file_id :: smaller ->
  unlink_ok env (image_path_of file_id) = true ->
  (forall i res,
      In (Invoked i res) (events (handle_image env update w)) ->
      i = image_path_of file_id
      /\ exists wi, present (image_path_of file_id) wi = true
                    /\ res = _generate_image_response env (image_path_of file_id) wi)
  /\ (present (image_path_of file_id) (final (handle_image env update w)) = false
      \/ (result (handle_image env update w) = Exc TelegramError
          /\ files (final (handle_image env update w)) = files w
          /\ invocations (events (handle_image env update w)) = 0))
  /\ (present (image_path_of file_id) w = false ->
      present (image_path_of file_id) (final (handle_image env update w)) = false).
Proof.
  intros Hphoto Hunlink.
  destruct (handle_image_run env update w file_id smaller Hphoto) as (_ & _ & _ & D & E).
  specialize (E Hunlink).
  split; [exact D|]. split; [exact E|].
  intros Hfree. destruct E as [E|(_ & E & _)]; [exact E|].
  unfold present in *. now rewrite E.
Qed.

(** Two runs of C5.  In the first the backend raises at every attempt and
    the handler returns after sending the fallback; in the second the
    transport also refuses the last status update (its call number 15), so
    the error leaves the handler.  Both invoke the work three times and end
    with the file gone. *)
Lemma C5_temp_file_removed_witness :
  rev (message_photo photo_update) = ["large"; "small"]
  /\ unlink_ok (mock_env [15] (always GenRaises)) (image_path_of "large") = true
  /\ (result (handle_image (mock_env [] (always GenRaises)) photo_update
                           (fresh_world SPICY)) = Val tt
      /\ present (image_path_of "large")
                 (final (handle_image (mock_env [] (always GenRaises)) photo_update
                                      (fresh_world SPICY))) = false)
  /\ (result (handle_image (mock_env [15] (always GenRaises)) photo_update
                           (fresh_world SPICY)) = Exc TelegramError
      /\ invocations (events (handle_image (mock_env [15] (always GenRaises))
                                           photo_update (fresh_world SPICY))) = 3
      /\ present (image_path_of "large")
                 (final (handle_image (mock_env [15] (always GenRaises)) photo_update
                                      (fresh_world SPICY))) = false).
Proof.
  split; [reflexivity|]. split; [reflexivity|]. split.
  - split; [vm_compute; reflexivity|].
    destruct (C5_temp_file_removed (mock_env [] (always GenRaises)) photo_update
                (fresh_world SPICY) "large" ["small"] eq_refl eq_refl)
      as (_ & [H|(H & _)] & _); [exact H|].
    vm_compute in H. discriminate H.
  - split; [vm_compute; reflexivity|]. split; [vm_compute; reflexivity|].
    destruct (C5_temp_file_removed (mock_env [15] (always GenRaises)) photo_update
                (fresh_world SPICY) "large" ["small"] eq_refl eq_refl)
      as (_ & [H|(_ & _ & H)] & _); [exact H|].
    vm_compute in H. discriminate H.
Defined.

(** C6, on the failing input: the backend raises at all three attempts and
    the transport refuses the terminal status update, the one sent with
    [MARKDOWN_V2].  The exception raised inside the [except] clause leaves
    the orchestrator and then the text handler; the user gets neither
    content, nor notice, nor fallback. *)
Theorem C6_exception_escapes :
  result (_process_with_retry (mock_env [11] (always GenRaises))
            (_generate_text_response (mock_env [11] (always GenRaises)))
            "prompt" fallback_text (fresh_world SPICY))
  = Exc TelegramError
  /\ last (events (_process_with_retry (mock_env [11] (always GenRaises))
                     (_generate_text_response (mock_env [11] (always GenRaises)))
                     "prompt" fallback_text (fresh_world SPICY)))
          (Slept 0)
     = Called (edit_message_text (status_exhausted SPICY) MARKDOWN_V2) false
  /\ result (handle_text (mock_env [13] (always GenRaises))
                         (text_update "Beli sekarang juga!") (fresh_world SPICY))
     = Exc TelegramError
  /\ replies (events (handle_text (mock_env [13] (always GenRaises))
                                  (text_update "Beli sekarang juga!")
                                  (fresh_world SPICY)))
     = [msg_text_received].
Proof. repeat split; vm_compute; reflexivity. Qed.

(** C10: a text message without text (none, or the empty string) makes the
    text handler issue one call, the reply asking for a text, and stop: the
    work is not invoked, nothing is counted and the store is untouched.  The
    handler returns when that reply goes through. *)
Theorem C10_no_text_short_circuit (env : Env) (update : Update) (w : World) :
  no_text update = true ->
  events (handle_text env update w)
  = [Called (reply_text msg_need_text)
            (transport env (bot_calls w) (reply_text msg_need_text))]
  /\ result (handle_text env update w)
     = (if transport env (bot_calls w) (reply_text msg_need_text)
        then Val tt else Exc TelegramError)
  /\ invocations (events (handle_text env update w)) = 0
  /\ has_increment (events (handle_text env update w)) = false
  /\ users (final (handle_text env update w)) = users w
  /\ work_calls (final (handle_text env update w)) = work_calls w
  /\ db_calls (final (handle_text env update w)) = db_calls w.
Proof.
  unfold no_text, handle_text. intros H.
  destruct (message_text update) as [t|].
  - destruct (truthy t); [discriminate H|]. repeat split.
  - repeat split.
Qed.

Lemma C10_no_text_short_circuit_witness :
  no_text (mkUpdate 7 (Some EmptyString) []) = true
  /\ events (handle_text (mock_env [] (always (GenText "unused")))
                         (mkUpdate 7 (Some EmptyString) []) (fresh_world SPICY))
     = [Called (reply_text msg_need_text) true]
  /\ result (handle_text (mock_env [] (always (GenText "unused")))
                         (mkUpdate 7 (Some EmptyString) []) (fresh_world SPICY))
     = Val tt.
Proof.
  split; [reflexivity|].
  destruct (C10_no_text_short_circuit (mock_env [] (always (GenText "unused")))
              (mkUpdate 7 (Some EmptyString) []) (fresh_world SPICY) eq_refl)
    as (H1 & H2 & _).
  exact (conj H1 H2).
Defined.

(** * Further properties *)

(** ** User store: lookups after writes, frames, sequences of calls *)

Section StoreLaws.

Lemma select_some_id (uid : Z) (t : Table) (r : UserRecord) :
  select_user uid t = Some r -> user_id r = uid.
Proof.
  unfold select_user. intros H. apply find_some in H as [_ H].
  unfold has_id in H. now apply Z.eqb_eq in H.
Qed.

Lemma select_app_old (uid : Z) (t t' : Table) (r : UserRecord) :
  select_user uid t = Some r -> select_user uid (t ++ t') = Some r.
Proof.
  unfold select_user. induction t as [|r0 t IH]; simpl; [discriminate|].
  destruct (has_id uid r0); [auto | exact IH].
Qed.

Lemma select_app_other (uid other : Z) (t : Table) (r : UserRecord) :
  user_id r = uid -> other <> uid ->
  select_user other (t ++ [r]) = select_user other t.
Proof.
  unfold select_user. intros Hr Hne. induction t as [|r0 t IH]; simpl.
  - unfold has_id. rewrite Hr.
    destruct (Z.eqb_spec uid other) as [E|_]; [now subst | reflexivity].
  - destruct (has_id other r0); [reflexivity | exact IH].
Qed.

(** What [add_user] does to the table, in every case. *)
Lemma add_user_table st now uid name t :
  snd (add_user st now uid name t) = t
  \/ (st = SqliteOk /\ select_user uid t = None
      /\ snd (add_user st now uid name t) = t ++ [mkUser uid name now 0 0]).
Proof.
  unfold add_user, insert_user. destruct st; simpl; [|now left].
  destruct (select_user uid t) eqn:E; simpl; [now left|].
  rewrite (select_none_absent _ _ E). simpl. right. repeat split.
Qed.

Lemma select_update_other f uid other t :
  other <> uid ->
  select_user other (update_rows f uid t) = select_user other t.
Proof.
  intros Hne. destruct (select_user other t) as [r|] eqn:E.
  - rewrite (select_update_rows f uid other t r E).
    apply select_some_id in E. unfold has_id. rewrite E.
    destruct (Z.eqb_spec other uid) as [X|_]; [contradiction | reflexivity].
  - unfold select_user, update_rows in *.
    induction t as [|r0 t IH]; simpl in *; [reflexivity|].
    assert (K : has_id other (if has_id uid r0 then bump f r0 else r0) = has_id other r0).
    { unfold has_id. destruct (user_id r0 =? uid)%Z; [now rewrite bump_id | reflexivity]. }
    rewrite K. destruct (has_id other r0); [discriminate | now apply IH].
Qed.

Lemma bump_keeps f r :
  username (bump f r) = username r /\ join_time (bump f r) = join_time r.
Proof. now destruct f. Qed.

Lemma increment_only_counters st uid f t :
  only_counters_of uid t (snd (_increment_field st uid f t)).
Proof.
  destruct st; cbn [_increment_field except_sqlite3 snd].
  - split; [apply update_rows_ids|].
    split; [intros other Hne; now apply select_update_other|].
    split; [apply update_rows_absent|].
    intros r Hr. rewrite (select_update_rows f uid uid t r Hr).
    eexists. split; [reflexivity|].
    destruct (has_id uid r); [apply bump_keeps | split; reflexivity].
  - repeat split; auto. intros r Hr. exists r. repeat split; exact Hr.
Qed.

Lemma only_counters_refl uid t : only_counters_of uid t t.
Proof. repeat split; auto. intros r Hr. exists r. repeat split; exact Hr. Qed.

Lemma only_counters_trans uid t1 t2 t3 :
  only_counters_of uid t1 t2 -> only_counters_of uid t2 t3 ->
  only_counters_of uid t1 t3.
Proof.
  intros (K1 & O1 & N1 & S1) (K2 & O2 & N2 & S2).
  split; [congruence|]. split; [|split].
  - intros other Hne. rewrite (O2 other Hne). now apply O1.
  - intros Hn. pose proof (N1 Hn) as E. subst t2. now apply N2.
  - intros r Hr. destruct (S1 r Hr) as (r2 & E2 & ? & ?).
    destruct (S2 r2 E2) as (r3 & E3 & ? & ?).
    exists r3. repeat split; [exact E3 | congruence | congruence].
Qed.

Lemma grows_refl t : grows t t.
Proof. intros uid r H. exists r. repeat split; [exact H | lia | lia]. Qed.

Lemma grows_trans t1 t2 t3 : grows t1 t2 -> grows t2 t3 -> grows t1 t3.
Proof.
  intros H12 H23 uid r H.
  destruct (H12 uid r H) as (r2 & E2 & ? & ? & ? & ?).
  destruct (H23 uid r2 E2) as (r3 & E3 & ? & ? & ? & ?).
  exists r3. repeat split; [exact E3 | congruence | congruence | lia | lia].
Qed.

Lemma increment_grows st uid f t : grows t (snd (_increment_field st uid f t)).
Proof.
  destruct st; cbn [_increment_field except_sqlite3 snd]; [|apply grows_refl].
  intros uid' r H. rewrite (select_update_rows f uid uid' t r H).
  eexists. split; [reflexivity|].
  destruct (has_id uid r); [destruct f; simpl|]; repeat split; lia.
Qed.

Lemma add_user_grows st now uid name t : grows t (snd (add_user st now uid name t)).
Proof.
  destruct (add_user_table st now uid name t) as [E|(_ & _ & E)]; rewrite E.
  - apply grows_refl.
  - intros uid' r H. exists r.
    repeat split; [now apply select_app_old | lia | lia].
Qed.

Lemma store_call_grows c t : grows t (store_call c t).
Proof. destruct c; [apply add_user_grows | apply increment_grows]. Qed.

Lemma store_call_keeps_key c t : primary_key t -> primary_key (store_call c t).
Proof. destruct c; [apply add_user_keeps_key | apply increment_keeps_key]. Qed.

Lemma bump_comm f g r : bump f (bump g r) = bump g (bump f r).
Proof. now destruct f, g. Qed.

Lemma select_after_count (uid : Z) (f : Field) (t : Table) (r : UserRecord) :
  select_user uid t = Some r ->
  select_user uid (update_rows f uid t) = Some (bump f r).
Proof.
  intros H. rewrite (select_update_rows f uid uid t r H).
  unfold has_id. now rewrite (select_some_id uid t r H), Z.eqb_refl.
Qed.

Lemma counter_bump (f : Field) (r : UserRecord) :
  counter f (bump f r) = (counter f r + 1)%Z.
Proof. now destruct f. Qed.

End StoreLaws.

(** X1: a user added under a new identifier can be looked up at once:
    [get_user_data] gives the username passed to [add_user] and both
    counters at 0, where it gave [None] before. *)
Theorem add_user_then_get_user_data (now name : string) (uid : Z) (t : Table) :
  select_user uid t = None ->
  get_user_data SqliteOk uid t = None
  /\ fst (add_user SqliteOk now uid name t) = Val true
  /\ get_user_data SqliteOk uid (snd (add_user SqliteOk now uid name t))
     = Some (name, 0%Z, 0%Z).
Proof.
  intros H. split; [simpl; now rewrite H|].
  destruct (add_user_table SqliteOk now uid name t) as [E|(_ & _ & E)].
  - exfalso. revert E. unfold add_user, insert_user. simpl.
    rewrite H, (select_none_absent _ _ H). simpl.
    intros E. apply (f_equal (@length _)) in E. rewrite length_app in E. simpl in E. lia.
  - split.
    + unfold add_user, insert_user. simpl. now rewrite H, (select_none_absent _ _ H).
    + rewrite E. simpl.
      now rewrite (select_app_new uid t (mkUser uid name now 0 0) H eq_refl).
Qed.

Lemma add_user_then_get_user_data_witness :
  select_user 8 [ani] = None
  /\ get_user_data SqliteOk 8
       (snd (add_user SqliteOk "2024-05-02T09:00:00" 8 "budi" [ani]))
     = Some ("budi", 0%Z, 0%Z).
Proof.
  split; [reflexivity|].
  exact (proj2 (proj2 (add_user_then_get_user_data
                         "2024-05-02T09:00:00" "budi" 8 [ani] eq_refl))).
Defined.

(** X2: for a registered user and a working engine, an increment returns
    [True] and raises the chosen counter of that user's row by exactly 1,
    leaving the other counter, the username and the join time as they
    were; [get_user_data] reports the new values. *)
Theorem increment_registered_user (uid : Z) (f : Field) (t : Table) (r : UserRecord) :
  select_user uid t = Some r ->
  fst (_increment_field SqliteOk uid f t) = Val true
  /\ select_user uid (snd (_increment_field SqliteOk uid f t)) = Some (bump f r)
  /\ counter f (bump f r) = (counter f r + 1)%Z
  /\ get_user_data SqliteOk uid (snd (_increment_field SqliteOk uid f t))
     = Some (username r,
             match f with F_usage_count => (usage_count r + 1)%Z
                        | F_image_usage_count => usage_count r end,
             match f with F_usage_count => image_usage_count r
                        | F_image_usage_count => (image_usage_count r + 1)%Z end).
Proof.
  intros H.
  pose proof (select_after_count uid f t r H) as S.
  cbn [_increment_field except_sqlite3 fst snd get_user_data].
  rewrite S. repeat split; now destruct f.
Qed.

Lemma increment_registered_user_witness :
  select_user 7 [ani] = Some ani
  /\ get_user_data SqliteOk 7 (snd (_increment_field SqliteOk 7 F_image_usage_count [ani]))
     = Some ("ani", 0%Z, 1%Z).
Proof.
  split; [reflexivity|].
  exact (proj2 (proj2 (proj2 (increment_registered_user 7 F_image_usage_count
                                [ani] ani eq_refl)))).
Defined.

(** X3: an increment for one user touches nobody else: the identifiers of
    the table stay as they are, in order, every other user's row is
    unchanged, the user's own username and join time are unchanged, and
    when the user has no row the table is unchanged; this holds whether
    or not the engine raises. *)
Theorem increment_touches_one_user (st : SqliteStatus) (uid : Z) (f : Field) (t : Table) :
  only_counters_of uid t (snd (_increment_field st uid f t)).
Proof. apply increment_only_counters. Qed.

(** X4: [add_user] never changes or removes a row: the table it leaves is
    the old table, or the old table followed by one new row for the
    identifier, with both counters at 0, and that only when the identifier
    had no row and the engine worked. *)
Theorem add_user_appends_at_most_one_row
        (st : SqliteStatus) (now name : string) (uid : Z) (t : Table) :
  (snd (add_user st now uid name t) = t
   \/ (st = SqliteOk /\ select_user uid t = None
       /\ snd (add_user st now uid name t) = t ++ [mkUser uid name now 0 0]))
  /\ forall other, other <> uid ->
       select_user other (snd (add_user st now uid name t)) = select_user other t.
Proof.
  split; [apply add_user_table|].
  intros other Hne.
  destruct (add_user_table st now uid name t) as [E|(_ & _ & E)]; rewrite E;
    [reflexivity | now apply (select_app_other uid)].
Qed.

(** X5: [n] increments with a working engine raise the counter of a
    registered user by exactly [n] and change nothing else of the row. *)
Theorem increment_times_adds (n : nat) (uid : Z) (f : Field) :
  forall (t : Table) (r : UserRecord),
    select_user uid t = Some r ->
    exists r',
      select_user uid (increment_times n uid f t) = Some r'
      /\ counter f r' = (counter f r + Z.of_nat n)%Z
      /\ username r' = username r /\ join_time r' = join_time r
      /\ match f with
         | F_usage_count => image_usage_count r' = image_usage_count r
         | F_image_usage_count => usage_count r' = usage_count r
         end.
Proof.
  induction n as [|n IH]; intros t r H.
  - exists r. cbn [increment_times]. repeat split; [exact H | lia | now destruct f].
  - cbn [increment_times].
    pose proof (select_after_count uid f t r H) as S.
    pose proof (counter_bump f r) as C.
    destruct (IH _ _ S) as (r' & S' & C' & U' & J' & O').
    exists r'. split; [exact S'|].
    split; [rewrite C', C; lia|].
    destruct (bump_keeps f r) as [Ub Jb].
    split; [congruence|]. split; [congruence|].
    destruct f; simpl in *; congruence.
Qed.

Lemma increment_times_adds_witness :
  select_user 7 [ani] = Some ani
  /\ exists r', select_user 7 (increment_times 5 7 F_usage_count [ani]) = Some r'
                /\ usage_count r' = 5%Z.
Proof.
  split; [reflexivity|].
  destruct (increment_times_adds 5 7 F_usage_count [ani] ani eq_refl)
    as (r' & S & C & _).
  exists r'. split; [exact S | exact C].
Defined.

(** X6: whatever writing calls are made, in whatever order and with the
    engine failing or not, a table with unique identifiers keeps them
    unique, and no row is lost, renamed, given another join time or a
    smaller counter.  In particular a username, once stored, is never
    updated. *)
Theorem store_calls_keep_rows (cs : list StoreCall) :
  forall t,
    primary_key t ->
    primary_key (store_calls cs t) /\ grows t (store_calls cs t).
Proof.
  unfold store_calls.
  induction cs as [|c cs IH]; intros t K; cbn [fold_left].
  - split; [exact K | apply grows_refl].
  - destruct (IH (store_call c t) (store_call_keeps_key c t K)) as [K' G'].
    split; [exact K'|].
    eapply grows_trans; [apply store_call_grows | exact G'].
Qed.

Lemma store_calls_keep_rows_witness :
  primary_key [ani]
  /\ primary_key (store_calls [CallAddUser SqliteOk "2030-01-01T00:00:00" 7 "renamed";
                               CallIncrement SqliteOk 7 F_usage_count;
                               CallAddUser SqliteFails "2030-01-01T00:00:00" 9 "cici"]
                              [ani])
  /\ grows [ani]
       (store_calls [CallAddUser SqliteOk "2030-01-01T00:00:00" 7 "renamed";
                     CallIncrement SqliteOk 7 F_usage_count;
                     CallAddUser SqliteFails "2030-01-01T00:00:00" 9 "cici"]
                    [ani]).
Proof.
  assert (K : primary_key [ani]) by (repeat constructor; intros []).
  split; [exact K|].
  exact (store_calls_keep_rows _ [ani] K).
Defined.

(** X7: two increments commute, for any users and fields: the table after
    both does not depend on which came first. *)
Theorem increments_commute (uid uid' : Z) (f g : Field) (t : Table) :
  snd (_increment_field SqliteOk uid f (snd (_increment_field SqliteOk uid' g t)))
  = snd (_increment_field SqliteOk uid' g (snd (_increment_field SqliteOk uid f t))).
Proof.
  cbn [_increment_field except_sqlite3 snd]. unfold update_rows.
  rewrite !map_map. apply map_ext. intros r. unfold has_id.
  destruct (user_id r =? uid)%Z eqn:E1, (user_id r =? uid')%Z eqn:E2;
    rewrite ?bump_id, ?E1, ?E2; auto using bump_comm.
Qed.

(** ** Retry orchestrator and message handlers, whatever the collaborators do *)

Section Bounds.

Variable env : Env.
Variables (process_func : Work) (process_input fallback_message : string).

Ltac branch_any :=
  match goal with
  | |- context [transport ?e ?n ?c] => destruct (transport e n c) eqn:?
  | |- context [process_func ?i ?w] => destruct (process_func i w) eqn:?
  | |- context [truthy ?s] => destruct (truthy s) eqn:?
  | |- context [(?n <? max_retries)%nat] => destruct (n <? max_retries)%nat eqn:?
  end.

(** One pass invokes the work at most once and sleeps at most once, for
    [retry_delay] seconds, and only when another pass follows. *)
Lemma attempt_bounds (n : nat) (w : World) :
  invocations (events (attempt env process_func process_input fallback_message n w)) <= 1
  /\ work_calls (final (attempt env process_func process_input fallback_message n w))
     = work_calls w
       + invocations (events (attempt env process_func process_input
                                      fallback_message n w))
  /\ (sleeps (events (attempt env process_func process_input fallback_message n w)) = []
      \/ (sleeps (events (attempt env process_func process_input fallback_message n w))
          = [retry_delay]
          /\ (n <? max_retries)%nat = true)).
Proof.
  unfold attempt, try_except, bind, bot_call, invoke, get_mode, sleep, ret.
  repeat (cbn [result final events app]; try branch_any);
    cbn [invocations sleeps work_calls tick_work tick_bot];
    (split; [lia|]); (split; [lia|]);
    first [left; reflexivity | right; split; reflexivity].
Qed.

Lemma retry_loop_bounds (retry_counts : list nat) :
  forall w,
    invocations (events (retry_loop env process_func process_input fallback_message
                                    retry_counts w)) <= length retry_counts
    /\ work_calls (final (retry_loop env process_func process_input fallback_message
                                     retry_counts w))
       = work_calls w
         + invocations (events (retry_loop env process_func process_input
                                           fallback_message retry_counts w))
    /\ Forall (eq retry_delay)
              (sleeps (events (retry_loop env process_func process_input
                                          fallback_message retry_counts w)))
    /\ length (sleeps (events (retry_loop env process_func process_input
                                          fallback_message retry_counts w)))
       <= length (filter (fun n => (n <? max_retries)%nat) retry_counts).
Proof.
  induction retry_counts as [|n rest IH]; intros w; cbn [retry_loop].
  - cbn. repeat split; [lia | lia | constructor | lia].
  - unfold bind, ret.
    pose proof (attempt_bounds n w) as (B1 & B2 & B3).
    destruct (attempt env process_func process_input fallback_message n w)
      as [[[s|]|e] w1 evs1]; cbn [result final events] in *.
    + rewrite app_nil_r. cbn [length filter].
      split; [lia|]. split; [exact B2|].
      destruct B3 as [->|[-> ->]]; cbn [length]; split; try lia; repeat constructor.
    + specialize (IH w1).
      destruct (retry_loop env process_func process_input fallback_message rest w1)
        as [r2 w2 evs2]; cbn [result final events] in *.
      destruct IH as (I1 & I2 & I3 & I4).
      rewrite invocations_app, sleeps_app, length_app. cbn [length filter].
      split; [lia|]. split; [lia|].
      destruct B3 as [->|[-> ->]]; cbn [length app]; split; try lia;
        try (constructor; [reflexivity|]); try exact I3.
      destruct (n <? max_retries)%nat; cbn [length]; lia.
    + cbn [length filter]. split; [lia|]. split; [exact B2|].
      destruct B3 as [->|[-> ->]]; cbn [length]; split; try lia; repeat constructor.
Qed.

Lemma orchestrator_invocations_le (w : World) :
  invocations (events (_process_with_retry env process_func process_input
                                           fallback_message w)) <= 3.
Proof. exact (proj1 (retry_loop_bounds (seq 1 max_retries) w)). Qed.

End Bounds.

(** X8: whatever the transport and the work do, one call of the
    orchestrator invokes the work at most 3 times and sleeps at most
    twice, 2 seconds each time. *)
Theorem orchestrator_is_bounded
        (env : Env) (process_func : Work) (process_input fallback_message : string)
        (w : World) :
  invocations (events (_process_with_retry env process_func process_input
                                           fallback_message w)) <= 3
  /\ work_calls (final (_process_with_retry env process_func process_input
                                            fallback_message w))
     = work_calls w
       + invocations (events (_process_with_retry env process_func process_input
                                                  fallback_message w))
  /\ Forall (eq 2%Z) (sleeps (events (_process_with_retry env process_func process_input
                                                          fallback_message w)))
  /\ length (sleeps (events (_process_with_retry env process_func process_input
                                                 fallback_message w))) <= 2.
Proof.
  destruct (retry_loop_bounds env process_func process_input fallback_message
              (seq 1 max_retries) w) as (B1 & B2 & B3 & B4).
  unfold _process_with_retry. repeat split; assumption.
Qed.

Section HandlerFrames.

Variable env : Env.

Ltac branch_call :=
  match goal with
  | |- context [transport ?e ?n ?c] => destruct (transport e n c) eqn:?
  end.

Ltac run_relay :=
  unfold bind, bot_call, db_increment, ret;
  repeat (cbn [result final events app]; rewrite ?increment_never_raises;
          try branch_call).

(** The store after the part of a handler that follows the orchestrator:
    untouched, or with the sender's increments applied. *)
Lemma text_tail_state (uid : Z) (s : string) (w : World) :
  bot_mode (final (text_tail env uid s w)) = bot_mode w
  /\ (users (final (text_tail env uid s w)) = users w
      \/ exists st,
          users (final (text_tail env uid s w))
          = snd (_increment_field st uid F_usage_count (users w))).
Proof.
  unfold text_tail. destruct (truthy s).
  - run_relay; (split; [reflexivity|]);
      first [left; reflexivity | right; eexists; reflexivity].
  - split; [reflexivity | left; reflexivity].
Qed.

Lemma image_tail_state (uid : Z) (s : string) (w : World) :
  bot_mode (final (image_tail env uid s w)) = bot_mode w
  /\ (users (final (image_tail env uid s w)) = users w
      \/ exists st1 st2,
          users (final (image_tail env uid s w))
          = snd (_increment_field st2 uid F_image_usage_count
                   (snd (_increment_field st1 uid F_usage_count (users w))))).
Proof.
  unfold image_tail. destruct (truthy s).
  - run_relay; (split; [reflexivity|]);
      first [left; reflexivity | right; eexists; eexists; reflexivity].
  - split; [reflexivity | left; reflexivity].
Qed.

Ltac stopped_early :=
  cbn [result final events invocations];
  split; [reflexivity|]; split; [reflexivity|]; split; [left; reflexivity|];
  split; [ intros ? ? X; cbn [In] in X;
           repeat (destruct X as [X|X]; try discriminate X); contradiction
         | lia ].

(** Every run of the text handler. *)
Lemma handle_text_frame (update : Update) (w : World) :
  bot_mode (final (handle_text env update w)) = bot_mode w
  /\ files (final (handle_text env update w)) = files w
  /\ (users (final (handle_text env update w)) = users w
      \/ exists st,
          users (final (handle_text env update w))
          = snd (_increment_field st (effective_user_id update) F_usage_count
                                  (users w)))
  /\ (forall i res,
        In (Invoked i res) (events (handle_text env update w)) ->
        exists t, message_text update = Some t
                  /\ build_prompt (bot_mode w) t = Formatted i
                  /\ exists wi, res = _generate_text_response env i wi)
  /\ invocations (events (handle_text env update w)) <= 3.
Proof.
  rewrite handle_text_unfold.
  destruct (message_text update) as [t|]; [destruct (truthy t) eqn:Ht|];
    [ | unfold bot_call; stopped_early | unfold bot_call; stopped_early ].
  unfold bind, bot_call, get_mode.
  branch_call; cbn [result final events app]; [|stopped_early].
  branch_call; cbn [result final events app]; [|stopped_early].
  rewrite build_prompt_eq.
  set (w2 := tick_bot (tick_bot w)).
  set (prompt := (prompt_prefix (bot_mode w2) ++ t ++ prompt_suffix (bot_mode w2))%string).
  pose proof (_process_with_retry_any env (_generate_text_response env) prompt
                fallback_text w2) as [Q _].
  pose proof (orchestrator_invocations_le env (_generate_text_response env) prompt
                fallback_text w2) as B.
  assert (P : build_prompt (bot_mode w) t = Formatted prompt)
    by apply build_prompt_eq.
  destruct (_process_with_retry env (_generate_text_response env) prompt fallback_text w2)
    as [[s|e] w3 evs3]; cbn [result final events] in *.
  all: destruct Q as ((M & U & F & _) & _ & V).
  - pose proof (text_tail_cases env (effective_user_id update) s w3)
      as (F4 & N4 & _).
    pose proof (text_tail_state (effective_user_id update) s w3) as (M4 & U4).
    destruct (text_tail env (effective_user_id update) s w3) as [r4 w4 evs4].
    cbn [result final events invocations] in *.
    split; [rewrite M4; exact M|]. split; [rewrite F4; exact F|].
    split; [rewrite U in U4; exact U4|]. split.
    + intros i res X. cbn [In] in X.
      repeat (destruct X as [X|X]; try discriminate X).
      apply in_app_or in X as [X|X]; [|now apply not_invoked in X].
      destruct (V i res X) as (-> & wi & _ & ->).
      exists t. split; [reflexivity|]. split; [exact P|]. now exists wi.
    + rewrite invocations_app, N4. lia.
  - cbn [invocations]. split; [exact M|]. split; [exact F|].
    split; [left; exact U|]. split; [|lia].
    intros i res X. cbn [In] in X.
    repeat (destruct X as [X|X]; try discriminate X).
    destruct (V i res X) as (-> & wi & _ & ->).
    exists t. split; [reflexivity|]. split; [exact P|]. now exists wi.
Qed.

(** Every run of the image handler. *)
Lemma handle_image_frame (update : Update) (w : World) :
  bot_mode (final (handle_image env update w)) = bot_mode w
  /\ (users (final (handle_image env update w)) = users w
      \/ exists st1 st2,
          users (final (handle_image env update w))
          = snd (_increment_field st2 (effective_user_id update) F_image_usage_count
                   (snd (_increment_field st1 (effective_user_id update)
                                          F_usage_count (users w)))))
  /\ invocations (events (handle_image env update w)) <= 3.
Proof.
  rewrite handle_image_unfold.
  destruct (rev (message_photo update)) as [|file_id smaller];
    [cbn; repeat split; [now left | lia]|].
  set (p := image_path_of file_id).
  unfold download, bind, bot_call, try_finally.
  do 4 (branch_call; cbn [result final events app invocations];
        [|split; [reflexivity|]; split; [left; reflexivity | lia]]).
  set (w4 := set_files (p :: files (tick_bot (tick_bot (tick_bot (tick_bot w)))))
                       (tick_bot (tick_bot (tick_bot (tick_bot w))))).
  pose proof (_process_with_retry_any env (_generate_image_response env) p
                fallback_image w4) as [Q _].
  pose proof (orchestrator_invocations_le env (_generate_image_response env) p
                fallback_image w4) as B.
  destruct (_process_with_retry env (_generate_image_response env) p fallback_image w4)
    as [[s|e] w5 evs5]; cbn [result final events] in *.
  all: destruct Q as ((M & U & _) & _ & _).
  - pose proof (image_tail_cases env (effective_user_id update) s w5)
      as (_ & N6 & _).
    pose proof (image_tail_state (effective_user_id update) s w5) as (M6 & U6).
    destruct (image_tail env (effective_user_id update) s w5) as [r6 w6 evs6].
    cbn [result final events] in *.
    rewrite cleanup_run. cbn [result final events app]. rewrite app_nil_r.
    set (w7 := if present p w6 && unlink_ok env p
               then set_files (remove string_dec p (files w6)) w6 else w6).
    assert (K : bot_mode w7 = bot_mode w6 /\ users w7 = users w6)
      by (unfold w7; destruct (present p w6 && unlink_ok env p); split; reflexivity).
    destruct K as [K1 K2]. cbn [invocations].
    rewrite K1, K2, invocations_app, N6.
    split; [rewrite M6; exact M|]. split; [rewrite U in U6; exact U6 | lia].
  - rewrite cleanup_run. cbn [result final events app]. rewrite app_nil_r.
    set (w7 := if present p w5 && unlink_ok env p
               then set_files (remove string_dec p (files w5)) w5 else w5).
    assert (K : bot_mode w7 = bot_mode w5 /\ users w7 = users w5)
      by (unfold w7; destruct (present p w5 && unlink_ok env p); split; reflexivity).
    destruct K as [K1 K2]. cbn [invocations]. rewrite K1, K2.
    split; [exact M|]. split; [left; exact U | lia].
Qed.

Lemma handlers_touch_only_sender_aux (update : Update) (w : World) :
  (select_user (effective_user_id update) (users w) = None ->
   users (final (handle_text env update w)) = users w)
  /\ (select_user (effective_user_id update) (users w) = None ->
      users (final (handle_image env update w)) = users w).
Proof.
  destruct (handle_text_frame update w) as (_ & _ & U & _).
  destruct (handle_image_frame update w) as (_ & U' & _).
  split; intros Hn.
  - destruct U as [E|[st E]]; rewrite E; [reflexivity|].
    now destruct (increment_only_counters st (effective_user_id update)
                    F_usage_count (users w)) as (_ & _ & N & _); apply N.
  - destruct U' as [E|(st1 & st2 & E)]; rewrite E; [reflexivity|].
    destruct (increment_only_counters st1 (effective_user_id update)
                F_usage_count (users w)) as (_ & _ & N & _).
    rewrite (N Hn).
    now destruct (increment_only_counters st2 (effective_user_id update)
                    F_image_usage_count (users w)) as (_ & _ & N' & _); apply N'.
Qed.

Lemma handle_text_invokes_built_prompt_aux (update : Update) (w : World) i res :
  In (Invoked i res) (events (handle_text env update w)) ->
  exists t, message_text update = Some t /\ i = prompt_of (bot_mode w) t.
Proof.
  intros X. destruct (handle_text_frame update w) as (_ & _ & _ & V & _).
  destruct (V i res X) as (t & Ht & P & _).
  exists t. split; [exact Ht|].
  rewrite build_prompt_eq in P. now injection P as <-.
Qed.

End HandlerFrames.

(** X9: whatever the collaborators do, the text handler invokes the
    generation work at most 3 times, and only on the prompt built from the
    mode in force when the handler started and the text of the message:
    the mode's template with that text in place of its field. *)
Theorem handle_text_invokes_built_prompt (env : Env) (update : Update) (w : World) :
  invocations (events (handle_text env update w)) <= 3
  /\ forall i res,
       In (Invoked i res) (events (handle_text env update w)) ->
       exists t, message_text update = Some t
                 /\ i = prompt_of (bot_mode w) t
                 /\ exists wi, res = _generate_text_response env i wi.
Proof.
  destruct (handle_text_frame env update w) as (_ & _ & _ & V & B).
  split; [exact B|].
  intros i res X. destruct (V i res X) as (t & Ht & P & wi & R).
  exists t. split; [exact Ht|]. split; [|now exists wi].
  rewrite build_prompt_eq in P. now injection P as <-.
Qed.

(** X10: whatever the collaborators do, a run of the text handler or of the
    image handler leaves the mode as it was and changes nothing in the
    store but counters of the sender's row: the identifiers stay as they
    are, every other user's row is unchanged, and the sender's username
    and join time are unchanged. *)
Theorem handlers_touch_only_sender (env : Env) (update : Update) (w : World) :
  (bot_mode (final (handle_text env update w)) = bot_mode w
   /\ only_counters_of (effective_user_id update) (users w)
                       (users (final (handle_text env update w))))
  /\ (bot_mode (final (handle_image env update w)) = bot_mode w
      /\ only_counters_of (effective_user_id update) (users w)
                          (users (final (handle_image env update w)))).
Proof.
  destruct (handle_text_frame env update w) as (M & _ & U & _).
  destruct (handle_image_frame env update w) as (M' & U' & _).
  split; (split; [assumption|]).
  - destruct U as [->|[st ->]];
      [apply only_counters_refl | apply increment_only_counters].
  - destruct U' as [->|(st1 & st2 & ->)]; [apply only_counters_refl|].
    eapply only_counters_trans; apply increment_only_counters.
Qed.

(** X11: the message handlers register nobody.  When the sender has no row
    (no [/start] yet), no run of the text or image handler changes the
    table, whatever it sends back, and [/info_akun] afterwards still
    answers that the account was not found. *)
Theorem unregistered_sender_is_not_recorded
        (env : Env) (update : Update) (user : TelegramUser) (w : World) :
  select_user (effective_user_id update) (users w) = None ->
  tg_id user = effective_user_id update ->
  users (final (handle_text env update w)) = users w
  /\ users (final (handle_image env update w)) = users w
  /\ snd (handle_myaccount env user (final (handle_text env update w)))
     = plain (reply_text msg_account_not_found)
  /\ snd (handle_myaccount env user (final (handle_image env update w)))
     = plain (reply_text msg_account_not_found).
Proof.
  intros Hn Hid.
  destruct (handlers_touch_only_sender_aux env update w) as [Ht Hi].
  assert (Et := Ht Hn). assert (Ei := Hi Hn).
  split; [exact Et|]. split; [exact Ei|].
  unfold handle_myaccount, get_user_data. rewrite Hid, Et, Ei, Hn.
  split; destruct (sqlite env _); reflexivity.
Qed.

(** ** Complete handler runs with working collaborators *)

Section ReliableRuns.

Variable env : Env.
Hypothesis transport_ok : reliable env.

Lemma replies_app evs evs' : replies (evs ++ evs') = replies evs ++ replies evs'.
Proof.
  induction evs as [|e evs IH]; [reflexivity|].
  destruct e as [[] [] | | |]; simpl; now rewrite IH.
Qed.

(** The orchestrator sends no reply of its own on the way to content. *)
Lemma loop_content_no_reply (process_func : Work)
      (process_input fallback_message : string) (k : nat) :
  forall first passes w content,
    first + passes = S max_retries ->
    k < passes ->
    (forall i, i < k -> fails_at process_func process_input (work_calls w + i)) ->
    returns_at process_func process_input (work_calls w + k) content ->
    truthy content = true ->
    replies (events (retry_loop env process_func process_input fallback_message
                                (seq first passes) w)) = [].
Proof.
  induction k as [|k IH]; intros first passes w content Hsum Hk Hfail Hret Htruthy;
    destruct passes as [|passes]; try lia; cbn [seq].
  - assert (E : process_func process_input (at_invocation w) = Val content)
      by (apply Hret; rewrite at_invocation_work_calls; lia).
    rewrite (loop_step_return env process_func process_input fallback_message
               _ _ _ _ _ _
               (attempt_content env transport_ok process_func process_input
                                fallback_message first w content E Htruthy)).
    reflexivity.
  - destruct (Hfail 0 ltac:(lia) (at_invocation w)) as [e E];
      [rewrite at_invocation_work_calls; lia|].
    assert (Hlt : first < max_retries) by lia.
    rewrite (loop_step_next env process_func process_input fallback_message
               _ _ _ _ _
               (attempt_raise_again env transport_ok process_func process_input
                                    fallback_message first w e E Hlt)).
    cbn [events]. rewrite replies_app.
    set (w' := tick_bot (tick_work (at_invocation w))).
    assert (Hw' : work_calls w' = S (work_calls w)) by reflexivity.
    rewrite (IH (S first) passes w' content); try lia; try assumption.
    + reflexivity.
    + intros i Hi. rewrite Hw'.
      replace (S (work_calls w) + i) with (work_calls w + S i) by lia.
      apply Hfail. lia.
    + rewrite Hw'.
      now replace (S (work_calls w) + k) with (work_calls w + S k) by lia.
Qed.

Lemma text_work_fails_at (prompt : string) (n : nat) :
  backend env n (TextRequest prompt) = GenRaises ->
  fails_at (_generate_text_response env) prompt n.
Proof.
  intros H w' Hw'. unfold _generate_text_response. rewrite Hw', H.
  eexists. reflexivity.
Qed.

Lemma text_work_returns_at (prompt content : string) (n : nat) :
  backend env n (TextRequest prompt) = GenText content ->
  returns_at (_generate_text_response env) prompt n content.
Proof.
  intros H w' Hw'. unfold _generate_text_response. now rewrite Hw', H.
Qed.

(** The part after the orchestrator, when everything works. *)
Lemma text_tail_ok (uid : Z) (s : string) (w : World) :
  healthy_store env -> truthy s = true ->
  text_tail env uid s w
  = mkRun (Val tt)
          (tick_bot (store (update_rows F_usage_count uid (users w)) (tick_bot w)))
          (text_relay uid s SqliteOk true).
Proof.
  intros Hdb Ht. unfold text_tail, text_relay. rewrite Ht.
  unfold bind, bot_call, db_increment.
  repeat (cbn [result final events app]; rewrite ?transport_ok, ?Hdb).
  reflexivity.
Qed.

Lemma image_tail_ok (uid : Z) (s : string) (w : World) :
  healthy_store env -> truthy s = true ->
  image_tail env uid s w
  = mkRun (Val tt)
          (tick_bot
             (store (update_rows F_image_usage_count uid
                       (update_rows F_usage_count uid (users w)))
                    (store (update_rows F_usage_count uid (users w)) (tick_bot w))))
          (image_relay uid s SqliteOk SqliteOk true).
Proof.
  intros Hdb Ht. unfold image_tail, image_relay. rewrite Ht.
  unfold bind, bot_call, db_increment.
  repeat (cbn [result final events app]; rewrite ?transport_ok, ?Hdb).
  reflexivity.
Qed.

(** A text roast that succeeds after [k] failed attempts. *)
Lemma handle_text_success (update : Update) (w : World) (t content : string)
      (r : UserRecord) (k : nat) :
  healthy_store env ->
  message_text update = Some t ->
  truthy t = true ->
  select_user (effective_user_id update) (users w) = Some r ->
  k < 3 ->
  (forall i, i < k ->
     backend env (work_calls w + i) (TextRequest (prompt_of (bot_mode w) t)) = GenRaises) ->
  backend env (work_calls w + k) (TextRequest (prompt_of (bot_mode w) t))
  = GenText content ->
  truthy content = true ->
  result (handle_text env update w) = Val tt
  /\ replies (events (handle_text env update w)) = [msg_text_received; content]
  /\ invocations (events (handle_text env update w)) = k + 1
  /\ sleeps (events (handle_text env update w)) = repeat 2%Z k
  /\ select_user (effective_user_id update) (users (final (handle_text env update w)))
     = Some (bump F_usage_count r)
  /\ db_calls (final (handle_text env update w)) = S (db_calls w).
Proof.
  intros Hdb Htext Ht Hr Hk Hfail Hret Hc.
  rewrite handle_text_unfold, Htext, Ht.
  unfold bind, bot_call, get_mode.
  repeat (cbn [result final events app]; rewrite ?transport_ok).
  rewrite build_prompt_eq. fold (prompt_of (bot_mode (tick_bot (tick_bot w))) t).
  set (w2 := tick_bot (tick_bot w)).
  change (bot_mode w2) with (bot_mode w).
  set (prompt := prompt_of (bot_mode w) t) in *.
  assert (F : forall i, i < k ->
                fails_at (_generate_text_response env) prompt (work_calls w2 + i))
    by (intros i Hi; apply text_work_fails_at, Hfail, Hi).
  assert (R : returns_at (_generate_text_response env) prompt (work_calls w2 + k) content)
    by (apply text_work_returns_at, Hret).
  destruct (loop_content_after env transport_ok (_generate_text_response env)
              prompt fallback_text k 1 max_retries w2 content
              eq_refl Hk F R Hc) as (L1 & _ & L3 & L4).
  pose proof (loop_content_no_reply (_generate_text_response env) prompt fallback_text
                k 1 max_retries w2 content eq_refl Hk F R Hc) as L5.
  pose proof (_process_with_retry_any env (_generate_text_response env) prompt
                fallback_text w2) as [((_ & U & _ & D) & _) _].
  unfold _process_with_retry in *.
  destruct (retry_loop env (_generate_text_response env) prompt fallback_text
                       (seq 1 max_retries) w2) as [r3 w3 evs3].
  cbn [result final events] in *. subst r3.
  rewrite (text_tail_ok (effective_user_id update) content w3 Hdb Hc).
  cbn [result final events app users store tick_bot db_calls].
  rewrite U, D.
  split; [reflexivity|].
  split; [cbn [replies]; rewrite replies_app, L5; reflexivity|].
  split; [cbn [invocations]; rewrite invocations_app, L3; cbn; lia|].
  split; [cbn [sleeps]; rewrite sleeps_app, L4; cbn; apply app_nil_r|].
  split; [now apply select_after_count | reflexivity].
Qed.

(** A text message the backend has nothing to say about. *)
Lemma handle_text_empty (update : Update) (w : World) (t : string) :
  message_text update = Some t ->
  truthy t = true ->
  response_text_of (backend env (work_calls w)
                            (TextRequest (prompt_of (bot_mode w) t)))
  = Val EmptyString ->
  handle_text env update w
  = mkRun (Val tt)
          (tick_bot (tick_work (at_invocation (tick_bot (tick_bot w)))))
          ([Called send_chat_action true;
            Called (reply_text msg_text_received) true]
           ++ opening_calls (bot_mode w)
           ++ [Invoked (prompt_of (bot_mode w) t) (Val EmptyString);
               Called (reply_text msg_speechless) true]).
Proof.
  intros Htext Ht Hb.
  rewrite handle_text_unfold, Htext, Ht.
  unfold bind, bot_call, get_mode.
  repeat (cbn [result final events app]; rewrite ?transport_ok).
  rewrite build_prompt_eq. fold (prompt_of (bot_mode (tick_bot (tick_bot w))) t).
  set (w2 := tick_bot (tick_bot w)).
  change (bot_mode w2) with (bot_mode w).
  set (prompt := prompt_of (bot_mode w) t) in *.
  assert (E : _generate_text_response env prompt (at_invocation w2) = Val EmptyString)
    by exact Hb.
  unfold _process_with_retry. cbn [seq max_retries].
  rewrite (loop_step_return env (_generate_text_response env) prompt fallback_text
             _ _ _ _ _ _
             (attempt_empty env transport_ok (_generate_text_response env) prompt
                            fallback_text 1 w2 E)).
  unfold text_tail, ret. cbn [truthy result final events app].
  rewrite !app_nil_r. reflexivity.
Qed.

(** An image roast that succeeds at the first attempt. *)
Lemma handle_image_success (update : Update) (w : World) (file_id content : string)
      (smaller : list string) (r : UserRecord) :
  healthy_store env ->
  unlink_ok env (image_path_of file_id) = true ->
  rev (message_photo update) = file_id :: smaller ->
  select_user (effective_user_id update) (users w) = Some r ->
  backend env (work_calls w) (ImageRequest image_prompt (image_path_of file_id))
  = GenText content ->
  truthy content = true ->
  result (handle_image env update w) = Val tt
  /\ replies (events (handle_image env update w)) = [msg_image_received; content]
  /\ invocations (events (handle_image env update w)) = 1
  /\ sleeps (events (handle_image env update w)) = []
  /\ select_user (effective_user_id update) (users (final (handle_image env update w)))
     = Some (bump F_image_usage_count (bump F_usage_count r))
  /\ present (image_path_of file_id) (final (handle_image env update w)) = false.
Proof.
  intros Hdb Hunlink Hphoto Hr Hb Hc.
  rewrite handle_image_unfold, Hphoto.
  set (p := image_path_of file_id) in *.
  unfold download, bind, bot_call, try_finally.
  repeat (cbn [result final events app]; rewrite ?transport_ok).
  set (w4 := set_files (p :: files (tick_bot (tick_bot (tick_bot (tick_bot w)))))
                       (tick_bot (tick_bot (tick_bot (tick_bot w))))).
  assert (P4 : forall w', files w' = files w4 -> present p w' = true).
  { intros w' E. unfold present. rewrite E. cbn. now rewrite String.eqb_refl. }
  assert (E : _generate_image_response env p (at_invocation w4) = Val content).
  { unfold _generate_image_response. rewrite (P4 (at_invocation w4) eq_refl).
    change (work_calls (at_invocation w4)) with (work_calls w). now rewrite Hb. }
  unfold _process_with_retry. cbn [seq max_retries].
  rewrite (loop_step_return env (_generate_image_response env) p fallback_image
             _ _ _ _ _ _
             (attempt_content env transport_ok (_generate_image_response env) p
                              fallback_image 1 w4 content E Hc)).
  rewrite (image_tail_ok (effective_user_id update) content _ Hdb Hc).
  rewrite cleanup_run, P4 by reflexivity. rewrite Hunlink.
  cbn [andb result final events app users store tick_bot set_files tick_work
       at_invocation files].
  split; [reflexivity|]. split; [reflexivity|]. split; [reflexivity|].
  split; [reflexivity|]. split.
  - subst w4. cbn [users set_files tick_bot].
    now apply select_after_count, select_after_count.
  - unfold present. cbn [files]. apply present_remove.
Qed.

End ReliableRuns.

(** ** Complete runs, and what [/info_akun] shows after them *)

Section Accounts.

Variable env : Env.

Lemma myaccount_of_row (user : TelegramUser) (w : World) (r : UserRecord) :
  healthy_store env ->
  select_user (tg_id user) (users w) = Some r ->
  snd (handle_myaccount env user w)
  = reply_markdown
      (myaccount_text (str_or (username r) (opt_or (tg_username user) "User"))
                      (usage_count r) (image_usage_count r)).
Proof.
  intros Hdb Hr. unfold handle_myaccount, get_user_data. now rewrite Hdb, Hr.
Qed.

Lemma stored_name_shown (u : option string) :
  str_or (opt_or u EmptyString) (opt_or u "User") = opt_or u "User".
Proof.
  destruct u as [s|]; [|reflexivity]. unfold opt_or, str_or.
  destruct (truthy s) eqn:E; [now rewrite E | reflexivity].
Qed.

Lemma length_append (a b : string) :
  String.length (a ++ b) = String.length a + String.length b.
Proof. induction a as [|c a IH]; simpl; [reflexivity | now rewrite IH]. Qed.

End Accounts.

(** X12: a text roast, end to end.  With transport and store working, a
    registered sender and a non-empty text: if the backend raises at the
    first [k] attempts ([k < 3]) and then answers non-empty content, the
    handler returns, the replies it sent are the acknowledgement and that
    content, it invoked the work [k + 1] times with 2 seconds of sleep
    after each failure, the sender's [usage_count] is one higher, and
    [/info_akun] afterwards shows the new count. *)
Theorem text_roast_is_counted
        (env : Env) (update : Update) (user : TelegramUser) (w : World)
        (t content : string) (r : UserRecord) (k : nat) :
  reliable env ->
  healthy_store env ->
  message_text update = Some t ->
  truthy t = true ->
  tg_id user = effective_user_id update ->
  select_user (effective_user_id update) (users w) = Some r ->
  k < 3 ->
  (forall i, i < k ->
     backend env (work_calls w + i) (TextRequest (prompt_of (bot_mode w) t)) = GenRaises) ->
  backend env (work_calls w + k) (TextRequest (prompt_of (bot_mode w) t))
  = GenText content ->
  truthy content = true ->
  result (handle_text env update w) = Val tt
  /\ replies (events (handle_text env update w)) = [msg_text_received; content]
  /\ invocations (events (handle_text env update w)) = k + 1
  /\ sleeps (events (handle_text env update w)) = repeat 2%Z k
  /\ select_user (effective_user_id update) (users (final (handle_text env update w)))
     = Some (bump F_usage_count r)
  /\ snd (handle_myaccount env user (final (handle_text env update w)))
     = reply_markdown
         (myaccount_text (str_or (username r) (opt_or (tg_username user) "User"))
                         (usage_count r + 1) (image_usage_count r)).
Proof.
  intros Hok Hdb Htext Ht Hid Hr Hk Hfail Hret Hc.
  destruct (handle_text_success env Hok update w t content r k
              Hdb Htext Ht Hr Hk Hfail Hret Hc) as (H1 & H2 & H3 & H4 & H5 & _).
  repeat (split; [assumption|]).
  rewrite <- Hid in H5.
  now rewrite (myaccount_of_row env user _ (bump F_usage_count r) Hdb H5).
Qed.

(** A roast in mode SPICY that succeeds at the second attempt. *)
Lemma text_roast_is_counted_witness :
  reliable (mock_env [] (fun n => if (n <? 1)%nat then GenRaises else GenText "Roasting keras"))
  /\ replies (events (handle_text
                        (mock_env [] (fun n => if (n <? 1)%nat then GenRaises
                                               else GenText "Roasting keras"))
                        (text_update "Beli sekarang juga!") (fresh_world SPICY)))
     = [msg_text_received; "Roasting keras"]
  /\ select_user 7 (users (final (handle_text
                        (mock_env [] (fun n => if (n <? 1)%nat then GenRaises
                                               else GenText "Roasting keras"))
                        (text_update "Beli sekarang juga!") (fresh_world SPICY))))
     = Some (mkUser 7 "ani" "2024-05-01T10:00:00" 1 0).
Proof.
  assert (R : reliable (mock_env [] (fun n => if (n <? 1)%nat then GenRaises
                                              else GenText "Roasting keras")))
    by (intros n c; reflexivity).
  split; [exact R|].
  destruct (text_roast_is_counted
              (mock_env [] (fun n => if (n <? 1)%nat then GenRaises
                                     else GenText "Roasting keras"))
              (text_update "Beli sekarang juga!") (mkTelegramUser 7 (Some "ani") "ani")
              (fresh_world SPICY) "Beli sekarang juga!" "Roasting keras" ani 1 R)
    as (_ & H2 & _ & _ & H5 & _);
    try reflexivity; try lia.
  - intros n. reflexivity.
  - intros i Hi. destruct i; [reflexivity | lia].
  - exact (conj H2 H5).
Defined.

(** X13: an image roast, end to end.  With transport, store and file system
    working and a registered sender: if the backend answers non-empty
    content to the image prompt and the downloaded file at the first
    attempt, the handler returns, the replies it sent are the
    acknowledgement and that content, both counters of the sender are one
    higher, the temporary file is gone, and [/info_akun] shows both new
    counts. *)
Theorem image_roast_is_counted
        (env : Env) (update : Update) (user : TelegramUser) (w : World)
        (file_id content : string) (smaller : list string) (r : UserRecord) :
  reliable env ->
  healthy_store env ->
  unlink_ok env (image_path_of file_id) = true ->
  rev (message_photo update) = file_id :: smaller ->
  tg_id user = effective_user_id update ->
  select_user (effective_user_id update) (users w) = Some r ->
  backend env (work_calls w) (ImageRequest image_prompt (image_path_of file_id))
  = GenText content ->
  truthy content = true ->
  result (handle_image env update w) = Val tt
  /\ replies (events (handle_image env update w)) = [msg_image_received; content]
  /\ invocations (events (handle_image env update w)) = 1
  /\ present (image_path_of file_id) (final (handle_image env update w)) = false
  /\ select_user (effective_user_id update) (users (final (handle_image env update w)))
     = Some (bump F_image_usage_count (bump F_usage_count r))
  /\ snd (handle_myaccount env user (final (handle_image env update w)))
     = reply_markdown
         (myaccount_text (str_or (username r) (opt_or (tg_username user) "User"))
                         (usage_count r + 1) (image_usage_count r + 1)).
Proof.
  intros Hok Hdb Hunlink Hphoto Hid Hr Hb Hc.
  destruct (handle_image_success env Hok update w file_id content smaller r
              Hdb Hunlink Hphoto Hr Hb Hc) as (H1 & H2 & H3 & _ & H5 & H6).
  repeat (split; [assumption|]).
  rewrite <- Hid in H5.
  now rewrite (myaccount_of_row env user _ _ Hdb H5).
Qed.

Lemma image_roast_is_counted_witness :
  reliable (mock_env [] (always (GenText "Desainnya rame")))
  /\ replies (events (handle_image (mock_env [] (always (GenText "Desainnya rame")))
                                   photo_update (fresh_world SOLUTION)))
     = [msg_image_received; "Desainnya rame"]
  /\ select_user 7 (users (final (handle_image
                                    (mock_env [] (always (GenText "Desainnya rame")))
                                    photo_update (fresh_world SOLUTION))))
     = Some (mkUser 7 "ani" "2024-05-01T10:00:00" 1 1).
Proof.
  assert (R : reliable (mock_env [] (always (GenText "Desainnya rame"))))
    by (intros n c; reflexivity).
  split; [exact R|].
  destruct (image_roast_is_counted
              (mock_env [] (always (GenText "Desainnya rame")))
              photo_update (mkTelegramUser 7 None "ani")
              (fresh_world SOLUTION) "large" "Desainnya rame" ["small"] ani R)
    as (_ & H2 & _ & _ & H5 & _);
    try reflexivity.
  - intros n. reflexivity.
  - exact (conj H2 H5).
Defined.

(** X14: a text the backend has nothing to say about.  With the transport
    working and a non-empty text, if the backend gives no response or an
    empty one at the first attempt, the handler returns after exactly
    these events: the acknowledgement, one pass of the orchestrator with
    one invocation, and the speechless notice.  It does not retry, does not
    delete the status message, counts nothing and leaves the store as it
    was. *)
Theorem empty_response_is_not_counted
        (env : Env) (update : Update) (w : World) (t : string) :
  reliable env ->
  message_text update = Some t ->
  truthy t = true ->
  response_text_of (backend env (work_calls w) (TextRequest (prompt_of (bot_mode w) t)))
  = Val EmptyString ->
  result (handle_text env update w) = Val tt
  /\ events (handle_text env update w)
     = [Called send_chat_action true; Called (reply_text msg_text_received) true]
       ++ opening_calls (bot_mode w)
       ++ [Invoked (prompt_of (bot_mode w) t) (Val EmptyString);
           Called (reply_text msg_speechless) true]
  /\ (forall ok, ~ In (Called delete_message ok) (events (handle_text env update w)))
  /\ users (final (handle_text env update w)) = users w
  /\ db_calls (final (handle_text env update w)) = db_calls w.
Proof.
  intros Hok Htext Ht Hb.
  rewrite (handle_text_empty env Hok update w t Htext Ht Hb).
  cbn [result final events]. repeat split.
  intros ok X. cbn [In app opening_calls] in X.
  repeat (destruct X as [X|X]; try discriminate X). exact X.
Qed.

Lemma empty_response_is_not_counted_witness :
  reliable (mock_env [] (always GenNothing))
  /\ replies (events (handle_text (mock_env [] (always GenNothing))
                                  (text_update "Beli sekarang juga!") (fresh_world SPICY)))
     = [msg_text_received; msg_speechless]
  /\ users (final (handle_text (mock_env [] (always GenNothing))
                               (text_update "Beli sekarang juga!") (fresh_world SPICY)))
     = [ani].
Proof.
  assert (R : reliable (mock_env [] (always GenNothing))) by (intros n c; reflexivity).
  split; [exact R|].
  destruct (empty_response_is_not_counted (mock_env [] (always GenNothing))
              (text_update "Beli sekarang juga!") (fresh_world SPICY)
              "Beli sekarang juga!" R eq_refl eq_refl eq_refl)
    as (_ & H2 & _ & H4 & _).
  split; [rewrite H2; reflexivity | exact H4].
Defined.

Lemma unregistered_sender_is_not_recorded_witness :
  select_user 99 (users (fresh_world SPICY)) = None
  /\ users (final (handle_text (mock_env [] (always (GenText "Roasting keras")))
                               (mkUpdate 99 (Some "Beli sekarang juga!") [])
                               (fresh_world SPICY))) = [ani]
  /\ snd (handle_myaccount (mock_env [] (always (GenText "Roasting keras")))
            (mkTelegramUser 99 (Some "zed") "zed")
            (final (handle_text (mock_env [] (always (GenText "Roasting keras")))
                                (mkUpdate 99 (Some "Beli sekarang juga!") [])
                                (fresh_world SPICY))))
     = plain (reply_text msg_account_not_found).
Proof.
  split; [reflexivity|].
  destruct (unregistered_sender_is_not_recorded
              (mock_env [] (always (GenText "Roasting keras")))
              (mkUpdate 99 (Some "Beli sekarang juga!") [])
              (mkTelegramUser 99 (Some "zed") "zed")
              (fresh_world SPICY) eq_refl eq_refl) as (H1 & _ & H3 & _).
  exact (conj H1 H3).
Defined.

(** ** Command handlers *)

(** X15: registration, then statistics.  With the store working, [/start]
    from a sender without a row adds the row (username as given by
    Telegram, or empty; both counters 0) and greets with the welcome text
    for the mode in force; [/info_akun] right after shows 0 and 0 under
    the Telegram username, or under the name User when there is none. *)
Theorem register_then_stats
        (env : Env) (now : string) (user : TelegramUser) (w : World) :
  healthy_store env ->
  select_user (tg_id user) (users w) = None ->
  select_user (tg_id user) (users (fst (handle_start env now user w)))
  = Some (mkUser (tg_id user) (opt_or (tg_username user) EmptyString) now 0 0)
  /\ snd (handle_start env now user w)
     = reply_markdown_v2 (welcome_text (tg_mention user) (mode_description (bot_mode w)))
  /\ snd (handle_myaccount env user (fst (handle_start env now user w)))
     = reply_markdown (myaccount_text (opt_or (tg_username user) "User") 0 0).
Proof.
  intros Hdb Hn.
  assert (S : select_user (tg_id user) (users (fst (handle_start env now user w)))
              = Some (mkUser (tg_id user) (opt_or (tg_username user) EmptyString) now 0 0)).
  { unfold handle_start. cbn [fst users store]. rewrite Hdb.
    unfold add_user, insert_user. cbn [except_sqlite3].
    rewrite Hn, (select_none_absent _ _ Hn). cbn [snd].
    now apply select_app_new. }
  split; [exact S|]. split; [reflexivity|].
  rewrite (myaccount_of_row env user _ _ Hdb S). cbn [username usage_count image_usage_count].
  now rewrite stored_name_shown.
Qed.

Lemma register_then_stats_witness :
  healthy_store (mock_env [] (always GenNothing))
  /\ select_user 8 (users (fresh_world SPICY)) = None
  /\ snd (handle_myaccount (mock_env [] (always GenNothing))
            (mkTelegramUser 8 None "Budi")
            (fst (handle_start (mock_env [] (always GenNothing)) "2024-05-02T09:00:00"
                               (mkTelegramUser 8 None "Budi") (fresh_world SPICY))))
     = reply_markdown (myaccount_text "User" 0 0).
Proof.
  assert (H : healthy_store (mock_env [] (always GenNothing))) by (intros n; reflexivity).
  split; [exact H|]. split; [reflexivity|].
  exact (proj2 (proj2 (register_then_stats (mock_env [] (always GenNothing))
                         "2024-05-02T09:00:00" (mkTelegramUser 8 None "Budi")
                         (fresh_world SPICY) H eq_refl))).
Defined.

(** X16: [/start] from a sender who has a row changes nothing in the
    store, whatever the engine does and whatever username Telegram now
    reports; with the store working, [/info_akun] afterwards shows the
    stored counters, under the stored username when that is not empty. *)
Theorem start_again_keeps_record
        (env : Env) (now : string) (user : TelegramUser) (w : World) (r : UserRecord) :
  select_user (tg_id user) (users w) = Some r ->
  users (fst (handle_start env now user w)) = users w
  /\ (healthy_store env ->
      truthy (username r) = true ->
      snd (handle_myaccount env user (fst (handle_start env now user w)))
      = reply_markdown (myaccount_text (username r) (usage_count r)
                                       (image_usage_count r))).
Proof.
  intros Hr.
  assert (U : users (fst (handle_start env now user w)) = users w).
  { unfold handle_start. cbn [fst users store].
    unfold add_user. destruct (sqlite env (db_calls w)); cbn; [|reflexivity].
    now rewrite Hr. }
  split; [exact U|]. intros Hdb Ht.
  rewrite <- U in Hr.
  rewrite (myaccount_of_row env user _ r Hdb Hr). unfold str_or. now rewrite Ht.
Qed.

Lemma start_again_keeps_record_witness :
  select_user 7 (users (fresh_world SPICY)) = Some ani
  /\ users (fst (handle_start (mock_env [] (always GenNothing)) "2030-01-01T00:00:00"
                              (mkTelegramUser 7 (Some "ani_renamed") "Ani")
                              (fresh_world SPICY))) = [ani].
Proof.
  split; [reflexivity|].
  exact (proj1 (start_again_keeps_record (mock_env [] (always GenNothing))
                  "2030-01-01T00:00:00" (mkTelegramUser 7 (Some "ani_renamed") "Ani")
                  (fresh_world SPICY) ani eq_refl)).
Defined.

(** X17: the mode is one value for everybody.  After [/mode_solusi] from
    anyone, every invocation made by the text handler, for any sender and
    whatever the collaborators do, is on the SOLUTION prompt of the
    message's text, and the mode is still SOLUTION after the run; likewise
    SPICY after [/mode_pedas].  The two prompts of one text are never the
    same string, and the mode commands touch neither store nor files. *)
Theorem mode_switch_is_global (env : Env) (update : Update) (w : World) :
  (forall i res,
      In (Invoked i res) (events (handle_text env update (fst (handle_mode_solusi w)))) ->
      exists t, message_text update = Some t /\ i = prompt_of SOLUTION t)
  /\ bot_mode (final (handle_text env update (fst (handle_mode_solusi w)))) = SOLUTION
  /\ (forall i res,
        In (Invoked i res) (events (handle_text env update (fst (handle_mode_pedas w)))) ->
        exists t, message_text update = Some t /\ i = prompt_of SPICY t)
  /\ bot_mode (final (handle_text env update (fst (handle_mode_pedas w)))) = SPICY
  /\ (forall t, prompt_of SPICY t <> prompt_of SOLUTION t)
  /\ users (fst (handle_mode_solusi w)) = users w
  /\ users (fst (handle_mode_pedas w)) = users w
  /\ files (fst (handle_mode_solusi w)) = files w
  /\ files (fst (handle_mode_pedas w)) = files w.
Proof.
  split; [|split; [|split; [|split; [|split]]]].
  - intros i res X.
    destruct (handle_text_invokes_built_prompt_aux env update
                (fst (handle_mode_solusi w)) i res X) as (t & Ht & Hi).
    now exists t.
  - now destruct (handle_text_frame env update (fst (handle_mode_solusi w))) as (-> & _).
  - intros i res X.
    destruct (handle_text_invokes_built_prompt_aux env update
                (fst (handle_mode_pedas w)) i res X) as (t & Ht & Hi).
    now exists t.
  - now destruct (handle_text_frame env update (fst (handle_mode_pedas w))) as (-> & _).
  - intros t E. apply (f_equal String.length) in E.
    unfold prompt_of in E. rewrite !length_append in E.
    assert (L1 : String.length (prompt_prefix SPICY) + String.length (prompt_suffix SPICY)
                 = 773) by (vm_compute; reflexivity).
    assert (L2 : String.length (prompt_prefix SOLUTION)
                 + String.length (prompt_suffix SOLUTION) = 830)
      by (vm_compute; reflexivity).
    lia.
  - repeat split.
Qed.

(** ** Schema *)

(** X18: [_create_tables] loses no data and converges.  Whatever fault the
    engine shows, the rows that were in the file are still there with
    their identifier, username, join time and usage count.  Without a
    fault the file ends with the current table, where rows of an older
    table have [image_usage_count] 0, and a second run changes nothing.
    The method raises, with [UnboundLocalError], exactly when the
    connection cannot be opened, and then the file is untouched. *)
Theorem create_tables_keeps_data (fault : SchemaFault) (db : Database) :
  legacy_view (snd (_create_tables fault db)) = legacy_view db
  /\ (fst (_create_tables fault db) = UnboundLocalError <-> fault = ConnectFails)
  /\ (fault = ConnectFails -> snd (_create_tables fault db) = db)
  /\ (exists t, snd (_create_tables NoFault db) = UsersTable t
                /\ (forall rows, db = LegacyTable rows ->
                      t = map add_image_column rows
                      /\ Forall (fun r => image_usage_count r = 0%Z) t)
                /\ (forall rows, db = UsersTable rows -> t = rows))
  /\ _create_tables NoFault (snd (_create_tables NoFault db))
     = (TablesDone, snd (_create_tables NoFault db)).
Proof.
  split; [|split; [|split; [|split]]].
  - destruct fault, db as [|rows|rows]; cbn; try reflexivity.
    rewrite map_map. rewrite <- (map_id rows) at 2.
    apply map_ext. now intros [].
  - destruct fault; cbn; split; intros H; try discriminate H; try reflexivity;
      destruct db; discriminate H.
  - now intros ->.
  - destruct db as [|rows|rows]; cbn; eexists; (split; [reflexivity|]);
      split; intros rows' E; try discriminate E; injection E as <-;
      try reflexivity.
    split; [reflexivity|]. apply Forall_forall. intros r Hin.
    apply in_map_iff in Hin as (l & <- & _). reflexivity.
  - destruct db as [|rows|rows]; reflexivity.
Qed.
